(** * Firewatch-Cloud: the ingestion, enrichment and notification lambdas

    A shallow embedding of the four Python lambdas of the repository
    ([fetch_fires.py], [process_fires.py], [stream_processor.py] and
    [lambda_function.py]) and the properties of the pipeline proved about
    them.

    Conventions of the embedding.
    - A Python [dict] read with [in], [d[k]] and [d.get(k, dflt)] is a
      [gmap string _]; a dict literal with a fixed set of keys is a record.
    - A function that can raise returns a [res]; the table of the store, the
      lines printed about the store and the calls made to the alert sink are
      threaded explicitly.
    - What the outside world answers during a run (the geocode service, the
      clock, the store's refusals, the alert sink) is an explicit argument.
    - A [str] is the string of the bytes of its UTF-8 encoding, so that
      comparing two of them code point by code point is comparing them byte
      by byte.
    - Floating point numbers are never computed with by these programs; they
      are parsed, printed and tested for zero. They are kept abstract:
      either carried by their [repr], or behind the builtins [float] and
      [format], which are variables of a section. *)

From Stdlib Require Import ZArith String Ascii List Lia.
From stdpp Require Import gmap strings list fin_maps pretty sorting.

Open Scope string_scope.
Open Scope list_scope.

(** ** Python values, exceptions and results *)

Module Py.

(** A value decoded from JSON. A float is carried by its [repr] (what
    [str] prints); a list or an object by whether it is non-empty and by
    its rendering, which is all these programs can observe of one. *)
Inductive pyval : Type :=
| PNone
| PBool (b : bool)
| PInt (z : Z)
| PFloat (repr : string)
| PStr (s : string)
| PObj (nonempty : bool) (repr : string).

#[global] Instance pyval_eq_dec : EqDecision pyval.
Proof. solve_decision. Defined.

(** [str(v)], which is also what an f-string field [{v}] prints. *)
Definition py_str (v : pyval) : string :=
  match v with
  | PNone => "None"
  | PBool true => "True"
  | PBool false => "False"
  | PInt z => pretty z
  | PFloat r => r
  | PStr s => s
  | PObj _ r => r
  end.

(** The truth value of [v] in [if v] and [x if v else y]. *)
Definition truthy (v : pyval) : bool :=
  match v with
  | PNone => false
  | PBool b => b
  | PInt z => negb (z =? 0)%Z
  | PFloat r => negb (bool_decide (r = "0.0") || bool_decide (r = "-0.0"))
  | PStr s => negb (bool_decide (s = ""))
  | PObj nonempty _ => nonempty
  end.

(** The exceptions these programs meet. [ClientError] stands for any
    failure reported by an AWS client other than the conditional check;
    [URLError] for any failure of [urlopen], of reading or of decoding its
    body. *)
Inductive exn : Type :=
| KeyError (key : string)
| ValueError (what : string)
| AttributeError (what : string)
| InvalidOperation (what : string)
| JSONDecodeError
| URLError (reason : string)
| HTTPError (code : Z)
| ConditionalCheckFailedException
| ClientError (reason : string).

#[global] Instance exn_eq_dec : EqDecision exn.
Proof. solve_decision. Defined.

(** The outcome of a call: a value, or an exception raised. *)
Inductive res (A : Type) : Type :=
| Ret (a : A)
| Raise (e : exn).
Arguments Ret {A} a.
Arguments Raise {A} e.

#[global] Instance res_bind : MBind res :=
  fun A B f m => match m with Ret a => f a | Raise e => Raise e end.

(** [d.get(k, dflt)]. *)
Definition get {A} (d : gmap string A) (k : string) (dflt : A) : A :=
  default dflt (d !! k).

(** [dict(pairs)]: a later pair replaces an earlier one with the same key. *)
Definition dict {A} (pairs : list (string * A)) : gmap string A :=
  foldl (fun d p => <[p.1 := p.2]> d) ∅ pairs.

(** Plain decimal literals: an optional sign, digits, and at most one
    point, with a digit somewhere. Both [float] and [Decimal] accept them;
    they are the numbers the examples below are run on. *)
Definition is_digit (c : ascii) : bool :=
  (48 <=? nat_of_ascii c)%nat && (nat_of_ascii c <=? 57)%nat.

Fixpoint fraction_digits (s : string) (seen : bool) : bool :=
  match s with
  | EmptyString => seen
  | String c rest => is_digit c && fraction_digits rest true
  end.

Fixpoint integer_digits (s : string) (seen : bool) : bool :=
  match s with
  | EmptyString => seen
  | String c rest =>
      if Ascii.eqb c "." then fraction_digits rest seen
      else is_digit c && integer_digits rest true
  end.

Definition plain_decimal (s : string) : bool :=
  match s with
  | EmptyString => false
  | String c rest =>
      if Ascii.eqb c "-" || Ascii.eqb c "+" then integer_digits rest false
      else integer_digits s false
  end.

(** [format(x, '.df')] of a plain decimal literal with at most [d]
    decimals, [d] not zero: the decimals are padded with zeros. *)
Fixpoint pad_fraction (d : nat) (s : string) : string :=
  match d, s with
  | 0, _ => s
  | S d', EmptyString => String "0" (pad_fraction d' EmptyString)
  | S d', String c rest => String c (pad_fraction d' rest)
  end.

Fixpoint fixed_literal (d : nat) (s : string) : string :=
  match s with
  | EmptyString => String "." (pad_fraction d EmptyString)
  | String c rest =>
      if Ascii.eqb c "." then String "." (pad_fraction d rest)
      else String c (fixed_literal d rest)
  end.

End Py.
Import Py.

(** ** [process_fires.py]: the Processor *)

Module ProcessFires.

(** A detection as it arrives in a queue message: a JSON object. *)
Abbreviation fire := (gmap string pyval).

(** The dict [fire_record] built by [process_fire]: always these keys. *)
Record fire_record : Type := {
  latitude : pyval;
  longitude : pyval;
  brightness : pyval;
  confidence : pyval;
  frp : pyval;
  acq_date : pyval;
  acq_time : pyval;
  satellite : pyval;
  instrument : pyval;
  daynight : pyval;
  location_city : pyval;
  location_locality : pyval;
  location_country : pyval;
  location_state : pyval
}.

(** A [Decimal], carried by the string it was built from. *)
Inductive decimal : Type := Dec (literal : string).

(** The item written to the table: the dict [item] of [store_fire_data]. *)
Record item : Type := {
  fire_id : string;
  timestamp : Z;
  item_latitude : decimal;
  item_longitude : decimal;
  item_brightness : decimal;
  item_confidence : pyval;
  item_frp : decimal;
  item_acq_date : pyval;
  item_acq_time : pyval;
  item_satellite : pyval;
  item_instrument : pyval;
  item_daynight : pyval;
  item_location_city : pyval;
  item_location_locality : pyval;
  item_location_state : pyval;
  item_location_country : pyval;
  created_at : string
}.

(** What the body of the geocode service's answer decodes to, when it
    decodes: a JSON object, or some other JSON value. *)
Inductive decoded : Type :=
| JDict (d : gmap string pyval)
| JOther (v : pyval).

(** What the outside world answers while one detection is processed:
    - [geo]: [urlopen], [read], [decode] and [json.loads] of the geocode
      request, either raising (timeout, connection failure, a status that is
      not 2xx, a body that is not JSON) or returning the decoded body;
    - [now_timestamp], [now_isoformat]: the two readings of the clock in
      [store_fire_data];
    - [put_item_fault]: an exception [table.put_item] raises whatever the
      table holds (throttling, a value the client cannot serialise, ...), if
      any. *)
Record env : Type := {
  geo : res decoded;
  now_timestamp : Z;
  now_isoformat : string;
  put_item_fault : option exn
}.

(** The lines [store_fire_data] prints about the outcome of a write. *)
Inductive log_line : Type :=
| LogStored (id : string)
| LogDuplicate (id : string)
| LogStoreError (id : string) (e : exn).

(** The table, keyed by [fire_id], and the lines printed so far. *)
Record world : Type := {
  table : gmap string item;
  log : list log_line
}.

Section Processor.

(** [Decimal(s)] accepts [s] or raises [InvalidOperation]; which strings the
    [decimal] module accepts is left open. *)
Variable decimal_syntax : string -> bool.

Definition Decimal (s : string) : res decimal :=
  if decimal_syntax s then Ret (Dec s) else Raise (InvalidOperation s).

(** [get_location_from_coordinates]: the decoded answer, or the four
    defaults when anything in the [try] block raised. The key cache only
    changes the URL, which is part of the request that [geo] answers. *)
Definition unknown_location : gmap string pyval :=
  dict [("city", PStr "Unknown"); ("locality", PStr "Unknown");
        ("countryName", PStr "Unknown");
        ("principalSubdivision", PStr "Unknown")].

Definition get_location_from_coordinates (e : env) : decoded :=
  match geo e with
  | Ret location_data => location_data
  | Raise _ => JDict unknown_location
  end.

(** [location_data.get(k, 'Unknown')]: only a dict has [get]. *)
Definition location_get (location_data : decoded) (k : string) : res pyval :=
  match location_data with
  | JDict d => Ret (get d k (PStr "Unknown"))
  | JOther _ => Raise (AttributeError "get")
  end.

(** The two forms of the identity key. *)
Definition acq_datetime (fire : fire_record) : string :=
  py_str (acq_date fire) +:+ "_" +:+ py_str (acq_time fire).

Definition primary_fire_id (fire : fire_record) : string :=
  py_str (latitude fire) +:+ "_" +:+ py_str (longitude fire) +:+ "_"
  +:+ acq_datetime fire.

Definition fallback_fire_id (ts : Z) (fire : fire_record) : string :=
  py_str (latitude fire) +:+ "_" +:+ py_str (longitude fire) +:+ "_"
  +:+ pretty ts.

(** The [fire_id] computed at the head of [store_fire_data]. *)
Definition derive_fire_id (ts : Z) (fire : fire_record) : string :=
  if decide (acq_datetime fire = "_") then fallback_fire_id ts fire
  else primary_fire_id fire.

(** [Decimal(str(v)) if v else Decimal('0')]. *)
Definition decimal_or_zero (v : pyval) : res decimal :=
  if truthy v then Decimal (py_str v) else Ret (Dec "0").

(** The dict [item], its entries evaluated in the order of the literal. *)
Definition build_item (e : env) (fire : fire_record) : res item :=
  let ts := now_timestamp e in
  lat ← Decimal (py_str (latitude fire));
  lon ← Decimal (py_str (longitude fire));
  bri ← decimal_or_zero (brightness fire);
  pow ← decimal_or_zero (frp fire);
  Ret {| fire_id := derive_fire_id ts fire;
         timestamp := ts;
         item_latitude := lat;
         item_longitude := lon;
         item_brightness := bri;
         item_confidence := confidence fire;
         item_frp := pow;
         item_acq_date := acq_date fire;
         item_acq_time := acq_time fire;
         item_satellite := satellite fire;
         item_instrument := instrument fire;
         item_daynight := daynight fire;
         item_location_city := location_city fire;
         item_location_locality := location_locality fire;
         item_location_state := location_state fire;
         item_location_country := location_country fire;
         created_at := now_isoformat e |}.

(** [table.put_item(Item=item,
      ConditionExpression='attribute_not_exists(fire_id)')]. *)
Definition put_item_if_absent (fault : option exn) (it : item)
    (tbl : gmap string item) : res (gmap string item) :=
  match fault with
  | Some e => Raise e
  | None =>
      match tbl !! fire_id it with
      | Some _ => Raise ConditionalCheckFailedException
      | None => Ret (<[fire_id it := it]> tbl)
      end
  end.

Definition say (l : log_line) (w : world) : world :=
  {| table := table w; log := log w ++ [l] |}.

(** [store_fire_data(fire)]. *)
Definition store_fire_data (e : env) (fire : fire_record) (w : world)
    : res unit * world :=
  match build_item e fire with
  | Raise x => (Raise x, w)
  | Ret it =>
      match put_item_if_absent (put_item_fault e) it (table w) with
      | Ret tbl =>
          (Ret tt, {| table := tbl; log := log w ++ [LogStored (fire_id it)] |})
      | Raise ConditionalCheckFailedException =>
          (Ret tt, say (LogDuplicate (fire_id it)) w)
      | Raise x => (Raise x, say (LogStoreError (fire_id it) x) w)
      end
  end.

(** The dict [fire_record] of [process_fire]. *)
Definition build_fire_record (lat lon : pyval) (fire : fire)
    (location_data : decoded) : res fire_record :=
  city ← location_get location_data "city";
  locality ← location_get location_data "locality";
  country ← location_get location_data "countryName";
  state ← location_get location_data "principalSubdivision";
  Ret {| latitude := lat;
         longitude := lon;
         brightness := get fire "brightness" (PInt 0);
         confidence := get fire "confidence" (PStr "unknown");
         frp := get fire "frp" (PInt 0);
         acq_date := get fire "acq_date" (PStr "");
         acq_time := get fire "acq_time" (PStr "");
         satellite := get fire "satellite" (PStr "");
         instrument := get fire "instrument" (PStr "");
         daynight := get fire "daynight" (PStr "");
         location_city := city;
         location_locality := locality;
         location_country := country;
         location_state := state |}.

(** [process_fire(fire)]: [False] when a coordinate is missing, [True] when
    [store_fire_data] returned; its [except] clause prints and re-raises. *)
Definition process_fire (e : env) (fire : fire) (w : world)
    : res bool * world :=
  match fire !! "latitude", fire !! "longitude" with
  | Some lat, Some lon =>
      match build_fire_record lat lon fire (get_location_from_coordinates e) with
      | Raise x => (Raise x, w)
      | Ret fire_record =>
          match store_fire_data e fire_record w with
          | (Ret _, w') => (Ret true, w')
          | (Raise x, w') => (Raise x, w')
          end
      end
  | _, _ => (Ret false, w)
  end.

(** One message of the queue. [json.loads(record['body'])] either raises or
    gives the message, of which the handler reads the list [fires] (empty
    when the key is absent); each detection comes with what the outside
    world answers while it is processed. *)
Inductive body : Type :=
| BodyRaises (e : exn)
| BodyMessage (fires : list (fire * env)).

Definition raises_body (b : body) : bool :=
  match b with BodyRaises _ => true | BodyMessage _ => false end.

Record sqs_record : Type := {
  messageId : string;
  record_body : body
}.

(** An entry of the list [errors]. *)
Inductive error_entry : Type :=
| FireError (f : fire) (e : exn)
| RecordError (message_id : string) (e : exn).

(** The three accumulators of the handler's loops. *)
Record tally : Type := {
  total_processed : nat;
  total_stored : nat;
  errors : list error_entry
}.

Definition tally0 : tally :=
  {| total_processed := 0; total_stored := 0; errors := [] |}.

(** The body of [for fire in fires]. *)
Definition fire_step (acc : tally * world) (d : fire * env) : tally * world :=
  let '(t, w) := acc in
  match process_fire d.2 d.1 w with
  | (Ret success, w') =>
      ({| total_processed := S (total_processed t);
          total_stored :=
            if success then S (total_stored t) else total_stored t;
          errors := errors t |}, w')
  | (Raise e, w') =>
      ({| total_processed := total_processed t;
          total_stored := total_stored t;
          errors := errors t ++ [FireError d.1 e] |}, w')
  end.

(** The body of [for record in event['Records']]. *)
Definition record_step (acc : tally * world) (r : sqs_record) : tally * world :=
  match record_body r with
  | BodyMessage fires => foldl fire_step acc fires
  | BodyRaises e =>
      let '(t, w) := acc in
      ({| total_processed := total_processed t;
          total_stored := total_stored t;
          errors := errors t ++ [RecordError (messageId r) e] |}, w)
  end.

(** The summary returned by the handler (its [timestamp] field left out). *)
Record response : Type := {
  statusCode : Z;
  processed : nat;
  stored : nat;
  n_errors : nat;
  error_details : list error_entry
}.

(** [lambda_handler(event, context)], on the list [event['Records']]. *)
Definition lambda_handler (records : list sqs_record) (w : world)
    : response * world :=
  let '(t, w') := foldl record_step (tally0, w) records in
  ({| statusCode := if errors t is [] then 200 else 207;
      processed := total_processed t;
      stored := total_stored t;
      n_errors := length (errors t);
      error_details := take 10 (errors t) |}, w').

(** *** The effect of a delivery on the table *)

(** The detections of the messages that decode, in order of processing. *)
Definition event_fires (records : list sqs_record) : list (fire * env) :=
  flat_map (fun r => match record_body r with
                     | BodyMessage fires => fires
                     | BodyRaises _ => []
                     end) records.

(** The item that processing a detection offers to the table: there is one
    when the coordinates are present, the geocode answer has [get], the
    decimals are accepted and [put_item] does not fail of itself. *)
Definition offered (d : fire * env) : option item :=
  match d.1 !! "latitude", d.1 !! "longitude" with
  | Some lat, Some lon =>
      match build_fire_record lat lon d.1 (get_location_from_coordinates d.2) with
      | Ret r =>
          match build_item d.2 r, put_item_fault d.2 with
          | Ret it, None => Some it
          | _, _ => None
          end
      | Raise _ => None
      end
  | _, _ => None
  end.

(** Create-if-absent of an offered item. *)
Definition create (tbl : gmap string item) (o : option item)
    : gmap string item :=
  match o with
  | Some it => if tbl !! fire_id it is Some _ then tbl else <[fire_id it := it]> tbl
  | None => tbl
  end.

(** Successive deliveries, each starting from the store the previous one
    left. *)
Definition deliver (w : world) (records : list sqs_record) : world :=
  (lambda_handler records w).2.

Definition deliver_all (deliveries : list (list sqs_record)) (w : world)
    : world :=
  foldl deliver w deliveries.

(** A redelivery carries the same messages; the geocode service and the
    store answer as before, and only the clock has moved. *)
Definition same_answers (e e' : env) : Prop :=
  geo e = geo e' /\ put_item_fault e = put_item_fault e'.

Definition same_fire (d d' : fire * env) : Prop :=
  d.1 = d'.1 /\ same_answers d.2 d'.2.

Inductive same_body : body -> body -> Prop :=
| same_body_raises e e' : same_body (BodyRaises e) (BodyRaises e')
| same_body_message fs fs' :
    Forall2 same_fire fs fs' -> same_body (BodyMessage fs) (BodyMessage fs').

Definition redelivery (records records' : list sqs_record) : Prop :=
  Forall2 (fun r r' => same_body (record_body r) (record_body r'))
          records records'.

(** A detection carries an acquisition date or time: one of the two prints
    as something else than the empty string. *)
Definition dated (f : fire) : Prop :=
  py_str (get f "acq_date" (PStr "")) <> ""
  \/ py_str (get f "acq_time" (PStr "")) <> "".

(** Every record is held under its own [fire_id]. *)
Definition keyed (tbl : gmap string item) : Prop :=
  forall k it, tbl !! k = Some it -> fire_id it = k.

(** What [store_fire_data] returns is what [process_fire] returns, [True]
    standing for a return without exception. *)
Definition stored_flag (o : res unit * world) : res bool * world :=
  match o with
  | (Ret _, w') => (Ret true, w')
  | (Raise x, w') => (Raise x, w')
  end.

(** The number of messages whose body does not decode. *)
Definition undecodable (records : list sqs_record) : nat :=
  length (List.filter (fun r => raises_body (record_body r)) records).




(** *** The deliveries of the examples *)

Definition world0 : world := {| table := ∅; log := [] |}.

(** A detection as the Fetcher queues it, and one without acquisition date
    and time. *)
Definition dated_fire : fire :=
  dict [("latitude", PFloat "34.0522"); ("longitude", PFloat "-118.2437");
        ("brightness", PFloat "330.5"); ("confidence", PStr "n");
        ("frp", PFloat "12.5"); ("acq_date", PStr "2024-01-15");
        ("acq_time", PStr "0612"); ("satellite", PStr "N");
        ("instrument", PStr "VIIRS"); ("daynight", PStr "D")].

Definition undated_fire : fire :=
  dict [("latitude", PFloat "34.0522"); ("longitude", PFloat "-118.2437");
        ("brightness", PFloat "330.5"); ("confidence", PStr "n");
        ("frp", PFloat "12.5")].

Definition los_angeles : decoded :=
  JDict (dict [("city", PStr "Los Angeles"); ("locality", PStr "Los Angeles");
               ("countryName", PStr "United States of America (the)");
               ("principalSubdivision", PStr "California")]).

(** The geocode service answers and the store takes the write. *)
Definition calm (ts : Z) (iso : string) : env :=
  {| geo := Ret los_angeles; now_timestamp := ts; now_isoformat := iso;
     put_item_fault := None |}.

Definition message (id : string) (fires : list (fire * env)) : sqs_record :=
  {| messageId := id; record_body := BodyMessage fires |}.

Definition dated_first : list sqs_record :=
  [message "m1" [(dated_fire, calm 1700000000 "2023-11-14T22:13:20")]].
Definition dated_second : list sqs_record :=
  [message "m1" [(dated_fire, calm 1700000060 "2023-11-14T22:14:20")]].

Definition undated_first : list sqs_record :=
  [message "m1" [(undated_fire, calm 1700000000 "2023-11-14T22:13:20")]].
Definition undated_second : list sqs_record :=
  [message "m1" [(undated_fire, calm 1700000060 "2023-11-14T22:14:20")]].

(** The record [process_fire] builds for a detection geocoded as
    [los_angeles]. *)
Definition record_of (f : fire) : fire_record :=
  {| latitude := get f "latitude" PNone; longitude := get f "longitude" PNone;
     brightness := get f "brightness" (PInt 0);
     confidence := get f "confidence" (PStr "unknown");
     frp := get f "frp" (PInt 0);
     acq_date := get f "acq_date" (PStr "");
     acq_time := get f "acq_time" (PStr "");
     satellite := get f "satellite" (PStr "");
     instrument := get f "instrument" (PStr "");
     daynight := get f "daynight" (PStr "");
     location_city := PStr "Los Angeles";
     location_locality := PStr "Los Angeles";
     location_country := PStr "United States of America (the)";
     location_state := PStr "California" |}.

(** The geocode service times out. *)
Definition no_geocode (ts : Z) (iso : string) : env :=
  {| geo := Raise (URLError "timed out"); now_timestamp := ts;
     now_isoformat := iso; put_item_fault := None |}.

(** The store refuses a write for a reason of its own. *)
Definition throttled (ts : Z) (iso : string) : env :=
  {| geo := Ret los_angeles; now_timestamp := ts; now_isoformat := iso;
     put_item_fault := Some (ClientError "ProvisionedThroughputExceededException") |}.

(** Ten detections at ten places. *)
Definition fire_at (n : Z) : fire :=
  <["latitude" := PFloat (pretty n +:+ ".5")]> dated_fire.

Definition ten_records : list sqs_record :=
  [message "m1"
     [(fire_at 1, calm 1700000000 "t"); (fire_at 2, calm 1700000000 "t");
      (fire_at 3, throttled 1700000000 "t"); (fire_at 4, calm 1700000001 "t");
      (fire_at 5, calm 1700000001 "t"); (fire_at 6, calm 1700000001 "t");
      (fire_at 7, throttled 1700000002 "t"); (fire_at 8, calm 1700000002 "t");
      (fire_at 9, calm 1700000002 "t"); (fire_at 10, calm 1700000003 "t")]].

(** *** The API key of the geocode service *)

(** [get_bigdata_api_key()]: the [api_key] of the secret (the empty string
    when the secret has none), or the empty string when anything raised,
    the secret not decoding to an object included. [reply] is what reading
    and decoding the secret gives. *)
Definition get_bigdata_api_key (reply : res decoded) : pyval :=
  match reply with
  | Ret (JDict d) => get d "api_key" (PStr "")
  | Ret (JOther _) => PStr ""
  | Raise _ => PStr ""
  end.

(** The module variable [_api_key_cache], [None] when a container starts,
    and the number of times the secret was read. *)
Record key_state : Type := {
  api_key_cache : pyval;
  secret_reads : nat
}.

Definition cold : key_state :=
  {| api_key_cache := PNone; secret_reads := 0 |}.

(** The head of [get_location_from_coordinates]: the key is loaded when
    the cache is [None]. *)
Definition load_api_key (s : key_state) (reply : res decoded) : key_state :=
  if api_key_cache s is PNone
  then {| api_key_cache := get_bigdata_api_key reply;
          secret_reads := S (secret_reads s) |}
  else s.

(** The dict [params] of the request, as the list of its entries. *)
Definition request_params (lat lon : pyval) (s : key_state)
    : list (string * pyval) :=
  [("latitude", lat); ("longitude", lon); ("localityLanguage", PStr "en")]
  ++ (if truthy (api_key_cache s) then [("key", api_key_cache s)] else []).

(** The lookups of one container, each with its coordinates and with what
    the secret would answer at that time: the state of the cache and the
    parameters of the requests made. *)
Definition lookup_step (acc : key_state * list (list (string * pyval)))
    (q : pyval * pyval * res decoded)
    : key_state * list (list (string * pyval)) :=
  let s := load_api_key acc.1 q.2 in
  (s, acc.2 ++ [request_params q.1.1 q.1.2 s]).

Definition lookups (s : key_state) (qs : list (pyval * pyval * res decoded))
    : key_state * list (list (string * pyval)) :=
  foldl lookup_step (s, []) qs.

(** A detection without coordinates. *)
Definition lacks_coordinates (d : fire * env) : Prop :=
  d.1 !! "latitude" = None \/ d.1 !! "longitude" = None.

(** *** The key and the table *)

Lemma underscore_only (a b : string) :
  a +:+ "_" +:+ b = "_" <-> a = "" /\ b = "".
Proof.
  split.
  - destruct a as [|c a]; simpl.
    + destruct b; [done | discriminate].
    + intros H. injection H as _ H. destruct a; discriminate.
  - intros [-> ->]. reflexivity.
Qed.

Lemma derive_fire_id_primary ts r :
  acq_datetime r <> "_" -> derive_fire_id ts r = primary_fire_id r.
Proof. intros H. unfold derive_fire_id. by destruct (decide _). Qed.

Lemma derive_fire_id_fallback ts r :
  acq_datetime r = "_" -> derive_fire_id ts r = fallback_fire_id ts r.
Proof. intros H. unfold derive_fire_id. by destruct (decide _). Qed.

Lemma process_fire_table e f w :
  table (process_fire e f w).2 = create (table w) (offered (f, e)).
Proof.
  unfold process_fire, offered; simpl.
  destruct (f !! "latitude") as [lat|]; [|done].
  destruct (f !! "longitude") as [lon|]; [|done].
  destruct (build_fire_record _ _ _ _) as [r|x]; [|done].
  unfold store_fire_data.
  destruct (build_item e r) as [it|x]; [|done].
  unfold put_item_if_absent.
  destruct (put_item_fault e) as [x|]; simpl.
  - by destruct x.
  - by destruct (table w !! fire_id it).
Qed.

Lemma fire_steps_table fires t w :
  table (foldl fire_step (t, w) fires).2
  = foldl create (table w) (offered <$> fires).
Proof.
  revert t w. induction fires as [|d fires IH]; intros t w; [done|].
  cbn [foldl fmap list_fmap]. unfold fire_step at 2.
  pose proof (process_fire_table d.2 d.1 w) as H.
  destruct (process_fire d.2 d.1 w) as [[b|x] w']; simpl in H;
    rewrite IH, H; by destruct d.
Qed.

Lemma record_steps_table records t w :
  table (foldl record_step (t, w) records).2
  = foldl create (table w) (offered <$> event_fires records).
Proof.
  revert t w. induction records as [|r records IH]; intros t w; [done|].
  cbn [foldl event_fires flat_map]. unfold record_step at 2.
  destruct (record_body r) as [x|fires] eqn:Hb; simpl.
  - apply IH.
  - rewrite fmap_app, foldl_app, <- (fire_steps_table fires t w).
    destruct (foldl fire_step (t, w) fires) as [t' w']. apply IH.
Qed.

Lemma deliver_table records w :
  table (deliver w records)
  = foldl create (table w) (offered <$> event_fires records).
Proof.
  unfold deliver, lambda_handler.
  pose proof (record_steps_table records tally0 w) as H.
  by destruct (foldl record_step (tally0, w) records).
Qed.

(** Nothing the table holds is ever replaced. *)
Lemma create_keeps tbl o k it :
  tbl !! k = Some it -> create tbl o !! k = Some it.
Proof.
  intros H. destruct o as [it'|]; simpl; [|done].
  destruct (tbl !! fire_id it') eqn:E; [done|].
  rewrite lookup_insert_ne; [done | congruence].
Qed.

Lemma creates_keep os tbl k it :
  tbl !! k = Some it -> foldl create tbl os !! k = Some it.
Proof.
  revert tbl. induction os as [|o os IH]; intros tbl H; [done|].
  simpl. by apply IH, create_keeps.
Qed.

(** After a run every offered key is in the table. *)
Lemma creates_hold os tbl it :
  Some it ∈ os -> is_Some (foldl create tbl os !! fire_id it).
Proof.
  revert tbl. induction os as [|o os IH]; intros tbl Hin.
  - by apply elem_of_nil in Hin.
  - apply elem_of_cons in Hin as [<- | Hin]; [|by apply IH].
    simpl. destruct (tbl !! fire_id it) as [it0|] eqn:E.
    + exists it0. by apply creates_keep.
    + exists it. apply creates_keep, lookup_insert_eq.
Qed.

(** A run whose offered keys are all held changes nothing. *)
Lemma creates_noop os tbl :
  (forall it, Some it ∈ os -> is_Some (tbl !! fire_id it)) ->
  foldl create tbl os = tbl.
Proof.
  induction os as [|o os IH]; intros H; [done|].
  simpl. assert (create tbl o = tbl) as ->.
  { destruct o as [it|]; [|done]. simpl.
    destruct (H it) as [it0 ->]; [left | done]. }
  apply IH. intros it Hin. apply H. by right.
Qed.

(** *** Redelivery *)

Lemma build_fire_record_fields lat lon f loc r :
  build_fire_record lat lon f loc = Ret r ->
  latitude r = lat /\ longitude r = lon
  /\ acq_date r = get f "acq_date" (PStr "")
  /\ acq_time r = get f "acq_time" (PStr "").
Proof.
  unfold build_fire_record. destruct loc as [d|v]; [|discriminate].
  simpl. intros [= <-]. done.
Qed.

Lemma dated_acq_datetime lat lon f loc r :
  build_fire_record lat lon f loc = Ret r ->
  dated f -> acq_datetime r <> "_".
Proof.
  intros Hr Hd Hu.
  apply build_fire_record_fields in Hr as (_ & _ & Hdate & Htime).
  apply underscore_only in Hu as [H1 H2].
  rewrite Hdate in H1. rewrite Htime in H2. destruct Hd; contradiction.
Qed.

(** The clock enters an item through its [fire_id] (fallback form),
    [timestamp] and [created_at] only: whether the item can be built does
    not depend on it. *)
Lemma build_item_clock e e' r it :
  build_item e r = Ret it ->
  exists it', build_item e' r = Ret it'
    /\ (acq_datetime r <> "_" -> fire_id it' = fire_id it).
Proof.
  unfold build_item.
  destruct (Decimal (py_str (latitude r))) as [lat|]; [|discriminate].
  destruct (Decimal (py_str (longitude r))) as [lon|]; [|discriminate].
  destruct (decimal_or_zero (brightness r)) as [bri|]; [|discriminate].
  destruct (decimal_or_zero (frp r)) as [pow|]; [|discriminate].
  simpl. intros [= <-]. eexists; split; [reflexivity|].
  intros H. simpl. by rewrite !derive_fire_id_primary.
Qed.

Lemma offered_again d d' it' :
  same_fire d d' -> dated d.1 -> offered d' = Some it' ->
  exists it, offered d = Some it /\ fire_id it = fire_id it'.
Proof.
  destruct d as [f e], d' as [f' e']. intros [Hf [Hg Hp]] Hd. simpl in *.
  subst f'. unfold offered, get_location_from_coordinates. simpl.
  rewrite <- Hg, <- Hp.
  destruct (f !! "latitude") as [lat|]; [|discriminate].
  destruct (f !! "longitude") as [lon|]; [|discriminate].
  destruct (build_fire_record _ _ _ _) as [r|] eqn:Hr; [|discriminate].
  destruct (build_item e' r) as [it0|] eqn:Hi; [|discriminate].
  destruct (put_item_fault e); [discriminate|]. intros [= ->].
  destruct (build_item_clock e' e r it' Hi) as (it & -> & Hid).
  exists it. split; [done|]. eapply Hid, dated_acq_datetime; eauto.
Qed.

Lemma redelivery_fires records records' :
  redelivery records records' ->
  Forall2 same_fire (event_fires records) (event_fires records').
Proof.
  induction 1 as [|r r' records records' Hb _ IH]; [constructor|].
  cbn [event_fires flat_map]. apply Forall2_app; [|exact IH].
  destruct Hb; [constructor | assumption].
Qed.

(** A redelivery of dated detections offers no key that the first delivery
    did not offer. *)
Lemma offered_keys_again ds ds' it' :
  Forall2 same_fire ds ds' -> Forall (fun d => dated d.1) ds ->
  Some it' ∈ offered <$> ds' ->
  exists it, Some it ∈ offered <$> ds /\ fire_id it = fire_id it'.
Proof.
  induction 1 as [|d d' ds ds' Hd _ IH]; intros Hdated Hin.
  - by apply elem_of_nil in Hin.
  - apply Forall_cons in Hdated as [Hd1 Hdated].
    rewrite fmap_cons in Hin. apply elem_of_cons in Hin as [Heq | Hin].
    + destruct (offered_again d d' it' Hd Hd1) as (it & Ho & Hid); [done|].
      exists it. split; [|done]. rewrite fmap_cons, <- Ho. left.
    + destruct (IH Hdated Hin) as (it & Ho & Hid).
      exists it. split; [|done]. rewrite fmap_cons. by right.
Qed.

Lemma redelivery_noop records records' w w' :
  redelivery records records' ->
  Forall (fun d => dated d.1) (event_fires records) ->
  table w' = table (deliver w records) ->
  table (deliver w' records') = table w'.
Proof.
  intros Hre Hdated Hw'. rewrite deliver_table. apply creates_noop.
  intros it' Hin.
  destruct (offered_keys_again _ _ it' (redelivery_fires _ _ Hre) Hdated Hin)
    as (it & Hin0 & <-).
  rewrite Hw', deliver_table. by apply creates_hold.
Qed.

Lemma deliver_keeps records w k it :
  table w !! k = Some it -> table (deliver w records) !! k = Some it.
Proof. intros H. rewrite deliver_table. by apply creates_keep. Qed.

Lemma deliver_all_keeps deliveries w k it :
  table w !! k = Some it ->
  table (deliver_all deliveries w) !! k = Some it.
Proof.
  revert w. induction deliveries as [|ev evs IH]; intros w H; [done|].
  apply IH. by apply deliver_keeps.
Qed.

Lemma create_keyed tbl o : keyed tbl -> keyed (create tbl o).
Proof.
  intros Hk. destruct o as [it|]; [|done]. simpl.
  destruct (tbl !! fire_id it) eqn:E; [done|].
  intros k it0. rewrite lookup_insert. case_decide.
  - by intros [= <-].
  - apply Hk.
Qed.

Lemma creates_keyed os tbl : keyed tbl -> keyed (foldl create tbl os).
Proof.
  revert tbl. induction os as [|o os IH]; intros tbl H; [done|].
  simpl. by apply IH, create_keyed.
Qed.

Lemma deliver_keyed records w :
  keyed (table w) -> keyed (table (deliver w records)).
Proof. rewrite deliver_table. apply creates_keyed. Qed.

Lemma deliver_all_keyed deliveries w :
  keyed (table w) -> keyed (table (deliver_all deliveries w)).
Proof.
  revert w. induction deliveries as [|ev evs IH]; intros w H; [done|].
  apply IH. by apply deliver_keyed.
Qed.

(** C1, as amended. A delivery whose detections all carry an acquisition
    date or time can be redelivered any number of times, at any later
    readings of the clock, with the geocode service and the store answering
    as they did: the table ends as the first delivery left it. Whatever is
    delivered, a record the table holds is never replaced, and every record
    stays under its own [fire_id], so the table holds one record for each
    [fire_id]. *)
Theorem redelivery_idempotent (records : list sqs_record)
    (again : list (list sqs_record)) (w : world) :
  Forall (fun d => dated d.1) (event_fires records) ->
  Forall (redelivery records) again ->
  table (deliver_all (records :: again) w) = table (deliver w records)
  /\ (forall k it, table w !! k = Some it ->
        table (deliver_all (records :: again) w) !! k = Some it)
  /\ (keyed (table w) -> keyed (table (deliver_all (records :: again) w))).
Proof.
  intros Hdated Hagain. split; [|split].
  - cbn [deliver_all foldl]. fold (deliver_all again (deliver w records)).
    assert (forall w', table w' = table (deliver w records) ->
              table (deliver_all again w') = table (deliver w records)) as H.
    { induction Hagain as [|ev evs Hev _ IH]; intros w' Hw'; [done|].
      cbn [deliver_all foldl]. apply IH.
      by rewrite (redelivery_noop records ev w w'). }
    by apply H.
  - intros k it. apply deliver_all_keeps.
  - apply deliver_all_keyed.
Qed.

(** C2, as amended. The key is [lat_long_acqDate_acqTime] as soon as one of
    the acquisition date and time prints as a non-empty string, and
    [lat_long_ingestTimestamp] only when both print as the empty string
    (absent fields were filled with the empty string by [process_fire]).
    With an acquisition date or time the key does not depend on the time of
    ingestion; without, ingestions at different seconds give different
    keys. The item is written under that key. *)
Theorem fire_id_policy (r : fire_record) (ts : Z) :
  (py_str (acq_date r) <> "" \/ py_str (acq_time r) <> "" ->
     derive_fire_id ts r = primary_fire_id r
     /\ forall ts', derive_fire_id ts' r = derive_fire_id ts r)
  /\ (py_str (acq_date r) = "" /\ py_str (acq_time r) = "" ->
     derive_fire_id ts r = fallback_fire_id ts r
     /\ forall ts', derive_fire_id ts' r = derive_fire_id ts r -> ts' = ts)
  /\ (forall e it, build_item e r = Ret it ->
        fire_id it = derive_fire_id (now_timestamp e) r).
Proof.
  split; [|split].
  - intros H.
    assert (acq_datetime r <> "_") as Hne.
    { intros Hu. apply underscore_only in Hu as [H1 H2].
      destruct H; contradiction. }
    split; [by apply derive_fire_id_primary|].
    intros ts'. by rewrite !derive_fire_id_primary.
  - intros H. apply underscore_only in H. fold (acq_datetime r) in H.
    split; [by apply derive_fire_id_fallback|].
    intros ts'. rewrite !derive_fire_id_fallback by done.
    unfold fallback_fire_id. intros Heq.
    repeat apply String.app_inj in Heq. by apply pretty_Z_inj in Heq.
  - intros e it. unfold build_item.
    destruct (Decimal (py_str (latitude r))); [|discriminate].
    destruct (Decimal (py_str (longitude r))); [|discriminate].
    destruct (decimal_or_zero (brightness r)); [|discriminate].
    destruct (decimal_or_zero (frp r)); [|discriminate].
    simpl. by intros [= <-].
Qed.

(** *** Geocoding failures *)

Lemma unknown_location_get k :
  location_get (JDict unknown_location) k = Ret (PStr "Unknown").
Proof.
  unfold location_get, get. f_equal.
  destruct (unknown_location !! k) as [v|] eqn:E; [|done]. simpl.
  unfold unknown_location, dict in E. simpl in E.
  repeat (apply lookup_insert_Some in E as [[_ <-] | [_ E]]; [done|]).
  by rewrite lookup_empty in E.
Qed.

(** The failures of the lookup that the code degrades on. When the
    geocode lookup raises (timeout, connection failure, a status that is
    not 2xx, a body that does not decode), a detection with
    both coordinates gets the four location fields ["Unknown"] and is handed
    to [store_fire_data] like any other; if its decimals are accepted and
    the store takes the write, the table holds it with those four fields. *)
Theorem geocode_failure_degrades (e : env) (f : fire) (lat lon : pyval)
    (x : exn) (w : world) :
  f !! "latitude" = Some lat -> f !! "longitude" = Some lon ->
  geo e = Raise x ->
  exists r : fire_record,
    build_fire_record lat lon f (get_location_from_coordinates e) = Ret r
    /\ location_city r = PStr "Unknown"
    /\ location_locality r = PStr "Unknown"
    /\ location_country r = PStr "Unknown"
    /\ location_state r = PStr "Unknown"
    /\ process_fire e f w = stored_flag (store_fire_data e r w)
    /\ forall it, build_item e r = Ret it -> put_item_fault e = None ->
         table w !! fire_id it = None ->
         (process_fire e f w).1 = Ret true
         /\ table (process_fire e f w).2 !! fire_id it = Some it
         /\ item_location_city it = PStr "Unknown"
         /\ item_location_locality it = PStr "Unknown"
         /\ item_location_country it = PStr "Unknown"
         /\ item_location_state it = PStr "Unknown".
Proof.
  intros Hlat Hlon Hgeo.
  assert (get_location_from_coordinates e = JDict unknown_location) as Hloc.
  { unfold get_location_from_coordinates. by rewrite Hgeo. }
  assert (exists r, build_fire_record lat lon f (JDict unknown_location) = Ret r
            /\ location_city r = PStr "Unknown"
            /\ location_locality r = PStr "Unknown"
            /\ location_country r = PStr "Unknown"
            /\ location_state r = PStr "Unknown") as (r & Hr & Hc & Hl & Hn & Hs).
  { unfold build_fire_record. rewrite !unknown_location_get. simpl.
    eexists. split; [reflexivity|]. done. }
  exists r. rewrite Hloc. repeat (split; [assumption|]).
  assert (process_fire e f w = stored_flag (store_fire_data e r w)) as Hp.
  { unfold process_fire. rewrite Hlat, Hlon, Hloc, Hr.
    unfold stored_flag. by destruct (store_fire_data e r w) as [[[]|] ?]. }
  split; [exact Hp|].
  intros it Hit Hfault Hfree. rewrite Hp.
  unfold store_fire_data, put_item_if_absent. rewrite Hit, Hfault, Hfree.
  simpl. rewrite lookup_insert_eq.
  split; [done|]. split; [done|].
  unfold build_item in Hit.
  destruct (Decimal (py_str (latitude r))); [|discriminate].
  destruct (Decimal (py_str (longitude r))); [|discriminate].
  destruct (decimal_or_zero (brightness r)); [|discriminate].
  destruct (decimal_or_zero (frp r)); [|discriminate].
  simpl in Hit. injection Hit as <-. simpl. done.
Qed.

(** An answer that decodes to something else than an object is no failure
    of the lookup: it is returned as it is, and [process_fire] raises on its
    first [get]. *)
Lemma geocode_not_an_object e f lat lon v w :
  f !! "latitude" = Some lat -> f !! "longitude" = Some lon ->
  geo e = Ret (JOther v) ->
  process_fire e f w = (Raise (AttributeError "get"), w).
Proof.
  intros Hlat Hlon Hgeo.
  unfold process_fire, get_location_from_coordinates.
  by rewrite Hlat, Hlon, Hgeo.
Qed.

(** *** Duplicates and the report *)

(** A write refused because the key is held: [store_fire_data] returns, and
    so [process_fire] returns [True]. *)
Lemma duplicate_write_returns e r it w :
  build_item e r = Ret it -> put_item_fault e = None ->
  is_Some (table w !! fire_id it) ->
  store_fire_data e r w = (Ret tt, say (LogDuplicate (fire_id it)) w).
Proof.
  intros Hit Hfault [it0 Hheld].
  unfold store_fire_data, put_item_if_absent.
  by rewrite Hit, Hfault, Hheld.
Qed.

(** In the handler's loop such a detection adds no error and leaves the
    table as it is, and [total_stored] goes up by one. *)
Lemma duplicate_step f e lat lon r it t w :
  f !! "latitude" = Some lat -> f !! "longitude" = Some lon ->
  build_fire_record lat lon f (get_location_from_coordinates e) = Ret r ->
  build_item e r = Ret it -> put_item_fault e = None ->
  is_Some (table w !! fire_id it) ->
  fire_step (t, w) (f, e)
  = ({| total_processed := S (total_processed t);
        total_stored := S (total_stored t);
        errors := errors t |}, say (LogDuplicate (fire_id it)) w).
Proof.
  intros Hlat Hlon Hr Hit Hfault Hheld.
  unfold fire_step, process_fire. simpl. rewrite Hlat, Hlon, Hr.
  by rewrite (duplicate_write_returns e r it w Hit Hfault Hheld).
Qed.












(** *** What is left out of the table *)

(** X8. A geocode answer that is valid JSON but not an object fails the
    detection: it is listed as an error with [AttributeError], it is
    neither processed nor stored, and the store is not touched. *)
Theorem geocode_non_object_fails_the_fire e f lat lon v t w :
  f !! "latitude" = Some lat -> f !! "longitude" = Some lon ->
  geo e = Ret (JOther v) ->
  fire_step (t, w) (f, e)
  = ({| total_processed := total_processed t;
        total_stored := total_stored t;
        errors := errors t ++ [FireError f (AttributeError "get")] |}, w).
Proof.
  intros Hlat Hlon Hgeo. unfold fire_step. cbn [fst snd].
  by rewrite (geocode_not_an_object e f lat lon v w Hlat Hlon Hgeo).
Qed.

Lemma skip_steps fires t w :
  Forall lacks_coordinates fires ->
  foldl fire_step (t, w) fires
  = ({| total_processed := total_processed t + length fires;
        total_stored := total_stored t;
        errors := errors t |}, w).
Proof.
  intros H. revert t. induction H as [|d fires Hd _ IH]; intros t.
  - cbn. rewrite Nat.add_0_r. by destruct t.
  - cbn [foldl]. unfold fire_step at 2, process_fire.
    assert (match d.1 !! "latitude", d.1 !! "longitude" with
            | Some _, Some _ => false
            | _, _ => true
            end = true) as Hskip.
    { destruct Hd as [-> | ->]; [done|]. by destruct (d.1 !! "latitude"). }
    destruct (d.1 !! "latitude"), (d.1 !! "longitude"); try discriminate;
      rewrite IH; cbn [total_processed total_stored errors length];
      do 2 f_equal; lia.
Qed.

Lemma skip_records records t w :
  undecodable records = 0 ->
  Forall lacks_coordinates (event_fires records) ->
  foldl record_step (t, w) records
  = ({| total_processed := total_processed t + length (event_fires records);
        total_stored := total_stored t;
        errors := errors t |}, w).
Proof.
  revert t. induction records as [|r records IH]; intros t Hu Hf.
  - cbn. rewrite Nat.add_0_r. by destruct t.
  - unfold undecodable in Hu. cbn [List.filter] in Hu.
    cbn [event_fires flat_map] in Hf. cbn [foldl event_fires flat_map].
    unfold record_step at 2.
    destruct (record_body r) as [x|fires]; [discriminate|].
    apply Forall_app in Hf as [Hfires Hrest].
    rewrite (skip_steps fires t w Hfires), IH by done.
    cbn [total_processed total_stored errors]. rewrite length_app.
    fold (event_fires records). do 2 f_equal. lia.
Qed.

(** X9. Detections without a latitude or a longitude are dropped without
    a trace in the report: a delivery that holds only such detections is
    answered 200 with every one of them counted as processed, none stored,
    no error, and the store is left as it was. *)
Theorem delivery_without_coordinates records w :
  undecodable records = 0 ->
  Forall lacks_coordinates (event_fires records) ->
  lambda_handler records w
  = ({| statusCode := 200; processed := length (event_fires records);
        stored := 0; n_errors := 0; error_details := [] |}, w).
Proof.
  intros Hu Hf. unfold lambda_handler.
  by rewrite (skip_records records tally0 w Hu Hf).
Qed.

Lemma new_record_offered e f w k it :
  table w !! k = None ->
  table (process_fire e f w).2 !! k = Some it ->
  offered (f, e) = Some it.
Proof.
  rewrite process_fire_table. unfold create. intros Hk.
  destruct (offered (f, e)) as [it'|]; [|congruence].
  destruct (table w !! fire_id it') eqn:E; [congruence|].
  intros [[_ <-]|[_ H]]%lookup_insert_Some; [done | congruence].
Qed.

(** X10. The record that processing a detection adds to the table takes
    the defaults for what the detection lacks: a brightness or an FRP that
    is missing or falsy (0, 0.0, null, the empty string) is stored as the
    decimal 0, a missing confidence as [unknown], and a missing acquisition
    date, time, satellite, instrument or day/night flag as the empty
    string. *)
Theorem absent_fields_take_defaults e f w k it :
  table w !! k = None ->
  table (process_fire e f w).2 !! k = Some it ->
  (truthy (get f "brightness" (PInt 0)) = false -> item_brightness it = Dec "0")
  /\ (truthy (get f "frp" (PInt 0)) = false -> item_frp it = Dec "0")
  /\ (f !! "confidence" = None -> item_confidence it = PStr "unknown")
  /\ (f !! "acq_date" = None -> item_acq_date it = PStr "")
  /\ (f !! "acq_time" = None -> item_acq_time it = PStr "")
  /\ (f !! "satellite" = None -> item_satellite it = PStr "")
  /\ (f !! "instrument" = None -> item_instrument it = PStr "")
  /\ (f !! "daynight" = None -> item_daynight it = PStr "").
Proof.
  intros Hk Hit. apply new_record_offered in Hit; [|done].
  unfold offered in Hit. cbn [fst snd] in Hit.
  destruct (f !! "latitude") as [lat|]; [|done].
  destruct (f !! "longitude") as [lon|]; [|done].
  destruct (build_fire_record _ _ _ _) as [r|] eqn:Hr; [|done].
  assert (brightness r = get f "brightness" (PInt 0)
          /\ frp r = get f "frp" (PInt 0)
          /\ confidence r = get f "confidence" (PStr "unknown")
          /\ acq_date r = get f "acq_date" (PStr "")
          /\ acq_time r = get f "acq_time" (PStr "")
          /\ satellite r = get f "satellite" (PStr "")
          /\ instrument r = get f "instrument" (PStr "")
          /\ daynight r = get f "daynight" (PStr ""))
    as (Hb & Hp & Hc & Hd & Ht & Hs & Hi & Hn).
  { unfold build_fire_record in Hr.
    destruct (get_location_from_coordinates e) as [d|v]; [|discriminate].
    simpl in Hr. by injection Hr as <-. }
  unfold build_item in Hit.
  destruct (Decimal (py_str (latitude r))) as [dlat|]; [|done].
  destruct (Decimal (py_str (longitude r))) as [dlon|]; [|done].
  destruct (decimal_or_zero (brightness r)) as [bri|] eqn:Ebri; [|done].
  destruct (decimal_or_zero (frp r)) as [pow|] eqn:Epow; [|done].
  simpl in Hit. destruct (put_item_fault e); [done|].
  injection Hit as <-. simpl.
  unfold decimal_or_zero in Ebri, Epow. rewrite Hb in Ebri. rewrite Hp in Epow.
  rewrite Hc, Hd, Ht, Hs, Hi, Hn.
  split_and!; intros H; try (unfold get; by rewrite H).
  - rewrite H in Ebri. congruence.
  - rewrite H in Epow. congruence.
Qed.

(** X20. What one call of [process_fire] can do. The table never loses
    or changes a record. [False] is returned only for a detection without a
    latitude or a longitude, and then nothing is touched. When the call
    raises, the table is as it was: a failed detection leaves no partial
    write. When it returns [True], either one record was inserted under a
    key that was free, or a duplicate was skipped and the table is as it
    was. *)
Theorem process_fire_outcomes e f w :
  let out := process_fire e f w in
  table w ⊆ table out.2
  /\ (out.1 = Ret false ->
      out.2 = w /\ (f !! "latitude" = None \/ f !! "longitude" = None))
  /\ (forall x, out.1 = Raise x -> table out.2 = table w)
  /\ (out.1 = Ret true ->
      exists id,
        (log out.2 = log w ++ [LogStored id] /\ table w !! id = None
         /\ exists it, fire_id it = id /\ table out.2 = <[id := it]> (table w))
        \/ (log out.2 = log w ++ [LogDuplicate id] /\ table out.2 = table w)).
Proof.
  cbv zeta. unfold process_fire.
  destruct (f !! "latitude") as [lat|];
    [|split_and!; [done | intros _; split; [done | by left] | done | done]].
  destruct (f !! "longitude") as [lon|];
    [|split_and!; [done | intros _; split; [done | by right] | done | done]].
  destruct (build_fire_record _ _ _ _) as [r|x];
    [|split_and!; [done | done | done | done]].
  unfold store_fire_data.
  destruct (build_item e r) as [it|x];
    [|split_and!; [done | done | done | done]].
  unfold put_item_if_absent.
  destruct (put_item_fault e) as [x|].
  - destruct x; cbn; (split_and!; [done | done | done |]); try done.
    intros _. exists (fire_id it). by right.
  - destruct (table w !! fire_id it) eqn:E; cbn.
    + split_and!; [done | done | done |].
      intros _. exists (fire_id it). by right.
    + split_and!; [by apply insert_subseteq | done | done |].
      intros _. exists (fire_id it). left. split_and!; [done | done |].
      by exists it.
Qed.

(** *** The cached API key *)

Lemma load_api_key_warm s reply :
  api_key_cache s <> PNone -> load_api_key s reply = s.
Proof. unfold load_api_key. by destruct (api_key_cache s). Qed.

Lemma warm_lookups s qs acc :
  api_key_cache s <> PNone ->
  foldl lookup_step (s, acc) qs
  = (s, acc ++ ((fun q => request_params q.1.1 q.1.2 s) <$> qs)).
Proof.
  intros Hs. revert acc. induction qs as [|q qs IH]; intros acc.
  - cbn. by rewrite app_nil_r.
  - cbn [foldl]. unfold lookup_step at 2. cbn [fst snd].
    rewrite load_api_key_warm by done. rewrite IH, fmap_cons.
    by rewrite <- app_assoc.
Qed.

(** X11. The API key is loaded with the first lookup of a container and,
    unless the secret gives [null], never again: the secret is read once
    and every request of the container is built with the key of that first
    reading. When that reading failed the cache holds the empty string, so
    no request of the container carries a key, whatever the secret would
    answer later. *)
Theorem api_key_loaded_once lat lon reply rest :
  get_bigdata_api_key reply <> PNone ->
  let key := get_bigdata_api_key reply in
  let warm := {| api_key_cache := key; secret_reads := 1 |} in
  let run := lookups cold ((lat, lon, reply) :: rest) in
  run = (warm, (fun q => request_params q.1.1 q.1.2 warm)
               <$> ((lat, lon, reply) :: rest))
  /\ (truthy key = true -> Forall (fun ps => ("key", key) ∈ ps) run.2)
  /\ ((exists x, reply = Raise x) -> Forall (fun ps => "key" ∉ ps.*1) run.2).
Proof.
  intros Hkey key warm run.
  assert (run = (warm, (fun q => request_params q.1.1 q.1.2 warm)
                       <$> ((lat, lon, reply) :: rest))) as Hrun.
  { unfold run, lookups. cbn [foldl]. unfold lookup_step at 2.
    cbn [fst snd]. unfold load_api_key at 1. cbn [cold api_key_cache secret_reads].
    fold key. fold warm. by rewrite (warm_lookups warm rest _ Hkey). }
  split; [done|]. rewrite Hrun. cbn [snd]. split.
  - intros Ht. apply Forall_fmap, Forall_forall. intros q _.
    unfold compose, request_params, warm. cbn [api_key_cache]. rewrite Ht.
    rewrite elem_of_app. right. by left.
  - intros [x ->]. apply Forall_fmap, Forall_forall. intros q _.
    unfold compose, request_params, warm. cbn.
    rewrite !not_elem_of_cons. split_and!; try done. apply not_elem_of_nil.
Qed.

End Processor.

(** *** The model run on concrete deliveries *)

Lemma redelivery_idempotent_witness :
  table (deliver_all plain_decimal [dated_first; dated_second; dated_second]
           world0)
  = table (deliver plain_decimal world0 dated_first).
Proof.
  refine (proj1 (redelivery_idempotent plain_decimal dated_first
                   [dated_second; dated_second] world0 _ _)).
  - constructor; [|constructor]. left. vm_compute. discriminate.
  - repeat constructor.
Defined.

(** C1 as stated fails on a detection without acquisition date and time:
    redelivered a minute later it is inserted a second time, under the key
    of the new ingestion time. *)
Lemma undated_redelivery_adds_a_record :
  redelivery undated_first undated_second
  /\ size (table (deliver plain_decimal world0 undated_first)) = 1
  /\ size (table (deliver_all plain_decimal [undated_first; undated_second]
                    world0)) = 2
  /\ log (deliver_all plain_decimal [undated_first; undated_second] world0)
     = [LogStored "34.0522_-118.2437_1700000000";
        LogStored "34.0522_-118.2437_1700000060"].
Proof.
  split; [repeat constructor|].
  split; [by vm_compute|]. split; by vm_compute.
Qed.

(** C2 as stated fails on a detection with a date and no time: the claim
    has it fall back on the ingestion time, the code keeps the date. *)
Lemma date_without_time_keeps_primary_key :
  let r := {| latitude := PFloat "34.0522"; longitude := PFloat "-118.2437";
              brightness := PFloat "330.5"; confidence := PStr "n";
              frp := PFloat "12.5"; acq_date := PStr "2024-01-15";
              acq_time := PStr ""; satellite := PStr ""; instrument := PStr "";
              daynight := PStr ""; location_city := PStr "Unknown";
              location_locality := PStr "Unknown";
              location_country := PStr "Unknown";
              location_state := PStr "Unknown" |} in
  py_str (acq_time r) = ""
  /\ derive_fire_id 1700000000 r = "34.0522_-118.2437_2024-01-15_"
  /\ fallback_fire_id 1700000000 r = "34.0522_-118.2437_1700000000".
Proof. by vm_compute. Qed.

Lemma fire_id_policy_witness :
  derive_fire_id 1700000000 (record_of dated_fire)
  = "34.0522_-118.2437_2024-01-15_0612"
  /\ derive_fire_id 1700000000 (record_of undated_fire)
     = "34.0522_-118.2437_1700000000"
  /\ (forall ts', derive_fire_id ts' (record_of undated_fire)
                  = derive_fire_id 1700000000 (record_of undated_fire) ->
                  ts' = 1700000000%Z).
Proof.
  pose proof (fire_id_policy plain_decimal (record_of dated_fire) 1700000000)
    as (Hdated & _ & _).
  pose proof (fire_id_policy plain_decimal (record_of undated_fire) 1700000000)
    as (_ & Hundated & _).
  destruct Hdated as [-> _]; [left; vm_compute; discriminate|].
  destruct Hundated as [-> Hinj]; [split; vm_compute; reflexivity|].
  split; [by vm_compute|]. split; [by vm_compute|]. exact Hinj.
Defined.

Lemma geocode_failure_degrades_witness :
  exists it,
    table (process_fire plain_decimal (no_geocode 1700000000 "2023-11-14T22:13:20")
             dated_fire world0).2 !! "34.0522_-118.2437_2024-01-15_0612"
    = Some it
    /\ item_location_city it = PStr "Unknown"
    /\ item_location_locality it = PStr "Unknown"
    /\ item_location_country it = PStr "Unknown"
    /\ item_location_state it = PStr "Unknown".
Proof.
  destruct (geocode_failure_degrades plain_decimal
              (no_geocode 1700000000 "2023-11-14T22:13:20") dated_fire
              (PFloat "34.0522") (PFloat "-118.2437") (URLError "timed out")
              world0)
    as (r & Hr & _ & _ & _ & _ & _ & Hstore);
    [by vm_compute | by vm_compute | reflexivity |].
  vm_compute in Hr. injection Hr as <-.
  edestruct Hstore as (_ & Hheld & Hfields);
    [by vm_compute | reflexivity | by vm_compute |].
  eexists. split; [exact Hheld | exact Hfields].
Defined.

(** C5 on an input where it fails: the geocode service answers with a
    body that is valid JSON but not an object (here [null]). Nothing is
    raised inside the lookup, so its defaults are not used and the answer
    is returned as it is; [process_fire] raises [AttributeError] on
    [location_data.get], the detection is listed as an error and nothing
    is stored. The same detection with a body that is not JSON, where the
    lookup does raise, is stored with the four fields [Unknown]. *)
Theorem malformed_geocode_answer_drops_the_record :
  let null_answer :=
    {| geo := Ret (JOther PNone); now_timestamp := 1700000000;
       now_isoformat := "2023-11-14T22:13:20"; put_item_fault := None |} in
  let not_json :=
    {| geo := Raise JSONDecodeError; now_timestamp := 1700000000;
       now_isoformat := "2023-11-14T22:13:20"; put_item_fault := None |} in
  let out :=
    lambda_handler plain_decimal [message "m1" [(dated_fire, null_answer)]]
      world0 in
  let kept := process_fire plain_decimal not_json dated_fire world0 in
  dated_fire !! "latitude" = Some (PFloat "34.0522")
  /\ dated_fire !! "longitude" = Some (PFloat "-118.2437")
  /\ get_location_from_coordinates null_answer = JOther PNone
  /\ process_fire plain_decimal null_answer dated_fire world0
     = (Raise (AttributeError "get"), world0)
  /\ processed out.1 = 0 /\ stored out.1 = 0 /\ n_errors out.1 = 1
  /\ statusCode out.1 = 207%Z
  /\ error_details out.1 = [FireError dated_fire (AttributeError "get")]
  /\ out.2 = world0
  /\ kept.1 = Ret true
  /\ exists it,
       table kept.2 !! "34.0522_-118.2437_2024-01-15_0612" = Some it
       /\ item_location_city it = PStr "Unknown"
       /\ item_location_locality it = PStr "Unknown"
       /\ item_location_country it = PStr "Unknown"
       /\ item_location_state it = PStr "Unknown".
Proof.
  cbv zeta. split_and!; try by vm_compute.
  eexists. split; [by vm_compute|]. by vm_compute.
Qed.

(** C3 on the input where it fails: one message carrying the same detection
    twice, delivered to an empty table. The second write is refused as a
    duplicate; no exception comes out of it and the list of errors stays
    empty, but [stored] is 2 with one record in the table. *)
Theorem duplicate_counted_as_stored :
  let delivery :=
    [message "m1" [(dated_fire, calm 1700000000 "2023-11-14T22:13:20");
                   (dated_fire, calm 1700000001 "2023-11-14T22:13:21")]] in
  let resp := (lambda_handler plain_decimal delivery world0).1 in
  let w' := (lambda_handler plain_decimal delivery world0).2 in
  log w' = [LogStored "34.0522_-118.2437_2024-01-15_0612";
            LogDuplicate "34.0522_-118.2437_2024-01-15_0612"]
  /\ size (table w') = 1
  /\ error_details resp = [] /\ n_errors resp = 0
  /\ statusCode resp = 200%Z
  /\ processed resp = 2
  /\ stored resp = 2.
Proof.
  cbv zeta. split_and!; by vm_compute.
Qed.

(** C8 on an input where it fails: the redelivery of a message whose
    detection the table already holds. Nothing is written, and the report
    says [stored] 1. *)
Theorem redelivery_reported_as_stored :
  let w1 := deliver plain_decimal world0 dated_first in
  let resp := (lambda_handler plain_decimal dated_second w1).1 in
  let w2 := (lambda_handler plain_decimal dated_second w1).2 in
  table w2 = table w1
  /\ size (table w2) = size (table w1)
  /\ stored resp = 1 /\ n_errors resp = 0 /\ statusCode resp = 200%Z.
Proof.
  cbv zeta. split.
  - apply (redelivery_noop plain_decimal dated_first dated_second world0).
    + repeat constructor.
    + constructor; [|constructor]. left. vm_compute. discriminate.
    + reflexivity.
  - split_and!; by vm_compute.
Qed.

(** The example of the specification: of ten records two fail at the write,
    the eight others are stored and the report lists the two errors. *)
Example ten_records_two_failures :
  let resp := (lambda_handler plain_decimal ten_records world0).1 in
  let w' := (lambda_handler plain_decimal ten_records world0).2 in
  stored resp = 8 /\ n_errors resp = 2 /\ statusCode resp = 207%Z
  /\ error_details resp
     = [FireError (fire_at 3) (ClientError "ProvisionedThroughputExceededException");
        FireError (fire_at 7) (ClientError "ProvisionedThroughputExceededException")]
  /\ size (table w') = 8.
Proof.
  cbv zeta. split_and!; by vm_compute.
Qed.

(** *** The side paths run on concrete deliveries *)

Lemma geocode_non_object_fails_the_fire_witness :
  let e := {| geo := Ret (JOther PNone); now_timestamp := 1700000000;
              now_isoformat := "2023-11-14T22:13:20";
              put_item_fault := None |} in
  fire_step plain_decimal (tally0, world0) (dated_fire, e)
  = ({| total_processed := 0; total_stored := 0;
        errors := [FireError dated_fire (AttributeError "get")] |}, world0).
Proof.
  intros e.
  apply (geocode_non_object_fails_the_fire plain_decimal e dated_fire
           (PFloat "34.0522") (PFloat "-118.2437") PNone tally0 world0);
    by vm_compute.
Defined.

Lemma delivery_without_coordinates_witness :
  let delivery :=
    [message "m1" [(delete "latitude" dated_fire, calm 1700000000 "t");
                   (delete "longitude" dated_fire, calm 1700000000 "t")]] in
  lambda_handler plain_decimal delivery world0
  = ({| statusCode := 200; processed := 2; stored := 0; n_errors := 0;
        error_details := [] |}, world0).
Proof.
  intros delivery.
  apply (delivery_without_coordinates plain_decimal delivery world0).
  - reflexivity.
  - repeat constructor; by vm_compute.
Defined.

Lemma absent_fields_take_defaults_witness :
  exists it,
    table (process_fire plain_decimal (calm 1700000000 "t")
             (dict [("latitude", PFloat "34.0522");
                    ("longitude", PFloat "-118.2437");
                    ("brightness", PFloat "0.0")]) world0).2
      !! "34.0522_-118.2437_1700000000" = Some it
    /\ item_brightness it = Dec "0" /\ item_frp it = Dec "0"
    /\ item_confidence it = PStr "unknown" /\ item_acq_date it = PStr "".
Proof.
  eexists. split; [by vm_compute|].
  edestruct (absent_fields_take_defaults plain_decimal (calm 1700000000 "t")
               (dict [("latitude", PFloat "34.0522");
                      ("longitude", PFloat "-118.2437");
                      ("brightness", PFloat "0.0")]) world0
               "34.0522_-118.2437_1700000000")
    as (Hb & Hp & Hc & Hd & _); [by vm_compute | by vm_compute |].
  split_and!; [apply Hb | apply Hp | apply Hc | apply Hd]; by vm_compute.
Defined.

Lemma api_key_loaded_once_witness :
  let later := Ret (JDict (dict [("api_key", PStr "bdc_0123")])) in
  let run := lookups cold
               [(PFloat "34.0522", PFloat "-118.2437",
                 Raise (ClientError "AccessDeniedException"));
                (PFloat "19.4326", PFloat "-99.1332", later)] in
  secret_reads run.1 = 1
  /\ api_key_cache run.1 = PStr ""
  /\ Forall (fun ps => "key" ∉ ps.*1) run.2.
Proof.
  intros later run.
  destruct (api_key_loaded_once (PFloat "34.0522") (PFloat "-118.2437")
              (Raise (ClientError "AccessDeniedException"))
              [(PFloat "19.4326", PFloat "-99.1332", later)])
    as (Hrun & _ & Hnone); [discriminate|].
  fold run in Hrun, Hnone. split_and!.
  - by rewrite Hrun.
  - by rewrite Hrun.
  - apply Hnone. by eexists.
Defined.

End ProcessFires.

(** ** [fetch_fires.py]: the Fetcher *)

Module FetchFires.

(** *** The string methods used *)

(** A [str] is the string of the bytes of its UTF-8 encoding.
    [str.strip()] removes the white space characters at both ends: the
    code points for which [str.isspace] holds, of one, two or three
    bytes. *)

(** White space of one byte: the code points 9-13, 28-31 and 32. *)
Definition is_space1 (c : ascii) : bool :=
  let n := nat_of_ascii c in
  ((9 <=? n)%nat && (n <=? 13)%nat) || ((28 <=? n)%nat && (n <=? 32)%nat).

(** White space of two bytes: U+0085 (C2 85) and U+00A0 (C2 A0). *)
Definition is_space2 (c c1 : ascii) : bool :=
  (nat_of_ascii c =? 194)%nat
  && ((nat_of_ascii c1 =? 133)%nat || (nat_of_ascii c1 =? 160)%nat).

(** White space of three bytes: U+1680 (E1 9A 80), U+2000 to U+200A
    (E2 80 80 to E2 80 8A), U+2028, U+2029 and U+202F (E2 80 A8, A9, AF),
    U+205F (E2 81 9F) and U+3000 (E3 80 80). *)
Definition is_space3 (c c1 c2 : ascii) : bool :=
  let n := nat_of_ascii c in
  let n1 := nat_of_ascii c1 in
  let n2 := nat_of_ascii c2 in
  ((n =? 225)%nat && (n1 =? 154)%nat && (n2 =? 128)%nat)
  || ((n =? 226)%nat && (n1 =? 128)%nat
      && (((128 <=? n2)%nat && (n2 <=? 138)%nat)
          || (n2 =? 168)%nat || (n2 =? 169)%nat || (n2 =? 175)%nat))
  || ((n =? 226)%nat && (n1 =? 129)%nat && (n2 =? 159)%nat)
  || ((n =? 227)%nat && (n1 =? 128)%nat && (n2 =? 128)%nat).

(** [s.lstrip()]: the white space characters at the head are removed. *)
Fixpoint lstrip (s : string) : string :=
  match s with
  | EmptyString => EmptyString
  | String c rest =>
      if is_space1 c then lstrip rest
      else match rest with
           | EmptyString => s
           | String c1 rest1 =>
               if is_space2 c c1 then lstrip rest1
               else match rest1 with
                    | EmptyString => s
                    | String c2 rest2 =>
                        if is_space3 c c1 c2 then lstrip rest2 else s
                    end
           end
  end.

(** [lstrip] of the reversed text: the bytes of a character come last
    byte first. *)
Fixpoint lstrip_reversed (s : string) : string :=
  match s with
  | EmptyString => EmptyString
  | String c rest =>
      if is_space1 c then lstrip_reversed rest
      else match rest with
           | EmptyString => s
           | String c1 rest1 =>
               if is_space2 c1 c then lstrip_reversed rest1
               else match rest1 with
                    | EmptyString => s
                    | String c2 rest2 =>
                        if is_space3 c2 c1 c then lstrip_reversed rest2 else s
                    end
           end
  end.

(** [s.strip()]. *)
Definition strip (s : string) : string :=
  String.rev (lstrip_reversed (String.rev (lstrip s))).

(** *** White space characters *)

(** The text after the white space character at the head of [s], if there
    is one. *)
Definition space_head (s : string) : option string :=
  match s with
  | EmptyString => None
  | String c rest =>
      if is_space1 c then Some rest
      else match rest with
           | EmptyString => None
           | String c1 rest1 =>
               if is_space2 c c1 then Some rest1
               else match rest1 with
                    | EmptyString => None
                    | String c2 rest2 =>
                        if is_space3 c c1 c2 then Some rest2 else None
                    end
           end
  end.

(** One white space character. *)
Definition white_space (sp : string) : Prop := space_head sp = Some "".

(** A continuation byte of UTF-8, which starts no character. *)
Definition continuation (c : ascii) : bool :=
  (128 <=? nat_of_ascii c)%nat && (nat_of_ascii c <=? 191)%nat.

(** The text does not start in the middle of a character. *)
Definition starts_clean (b : string) : Prop :=
  match b with
  | EmptyString => True
  | String c _ => continuation c = false
  end.

(** [s.split(sep)] for a separator of one character: never empty. *)
Fixpoint split (sep : ascii) (s : string) : list string :=
  match s with
  | EmptyString => [EmptyString]
  | String c rest =>
      if Ascii.eqb c sep then EmptyString :: split sep rest
      else match split sep rest with
           | field :: fields => String c field :: fields
           | [] => [String c EmptyString]
           end
  end.

Definition newline : ascii := ascii_of_nat 10.
Definition comma : ascii := ",".

(** [float] on plain decimal literals between white space, a float being
    carried by the literal it was read from. *)
Definition literal_float (s : string) : option string :=
  if plain_decimal (strip s) then Some (strip s) else None.

Definition csv (lines : list string) : string :=
  String.concat (String newline EmptyString) lines.

Definition viirs_header : string :=
  "latitude,longitude,bright_ti4,scan,track,acq_date,acq_time,satellite,instrument,confidence,version,bright_ti5,frp,daynight".

Section Parser.

(** The builtin [float]: on a string it returns a float or raises
    [ValueError] ([None] here); [float(0)] is [float_zero]. *)
Variable pyfloat : Type.
Variable float : string -> option pyfloat.
Variable float_zero : pyfloat.

(** The dict [fire_record] appended for a row. *)
Record fire_record : Type := {
  latitude : pyfloat;
  longitude : pyfloat;
  brightness : pyfloat;
  confidence : string;
  frp : pyfloat;
  acq_date : string;
  acq_time : string;
  satellite : string;
  instrument : string;
  daynight : string
}.

(** [float(fire.get(k, 0))]. *)
Definition float_get (fire : gmap string string) (k : string)
    : option pyfloat :=
  match fire !! k with
  | Some cell => float cell
  | None => Some float_zero
  end.

(** The body of the [try]: [None] when a [float] raised. *)
Definition build_fire_record (fire : gmap string string)
    : option fire_record :=
  lat ← float_get fire "latitude";
  lon ← float_get fire "longitude";
  bri ← float_get fire "brightness";
  pow ← float_get fire "frp";
  Some {| latitude := lat;
          longitude := lon;
          brightness := bri;
          confidence := get fire "confidence" "unknown";
          frp := pow;
          acq_date := get fire "acq_date" "";
          acq_time := get fire "acq_time" "";
          satellite := get fire "satellite" "";
          instrument := get fire "instrument" "";
          daynight := get fire "daynight" "" |}.

(** The body of [for line in lines[1:]]. *)
Definition row_step (header : list string) (fires : list fire_record)
    (line : string) : list fire_record :=
  let values := split comma line in
  if (length values <? length header)%nat then fires
  else match build_fire_record (dict (zip header values)) with
       | Some fire_record => fires ++ [fire_record]
       | None => fires
       end.

(** [parse_csv_data(csv_data)]. *)
Definition parse_csv_data (csv_data : string) : list fire_record :=
  let lines := split newline (strip csv_data) in
  if (length lines <? 2)%nat then []
  else match lines with
       | header_line :: rows => foldl (row_step (split comma header_line)) [] rows
       | [] => []
       end.

(** *** Which rows are kept *)

(** The row as the dict [fire], when it is not shorter than the header. *)
Definition row_dict (header : list string) (line : string)
    : option (gmap string string) :=
  let values := split comma line in
  if (length values <? length header)%nat then None
  else Some (dict (zip header values)).

(** The record of a row, if the row is kept. *)
Definition row_record (header : list string) (line : string)
    : option fire_record :=
  row_dict header line ≫= build_fire_record.


(** *** Fetching and queueing *)

(** [range(0, n, step)] for a positive [step]: the multiples of [step]
    below [n]. *)
Definition range_from_zero (n step : nat) : list nat :=
  (fun k => k * step) <$> seq 0 ((n + step - 1) / step).

(** The message put on the queue for a batch, and the request that carries
    it ([batch_size_attribute] is the message attribute [batch_size]). *)
Record queue_message : Type := {
  message_fires : list fire_record;
  batch_id : string;
  timestamp : string
}.

Record send_request : Type := {
  MessageBody : queue_message;
  batch_size_attribute : string
}.

(** The queue as the Fetcher meets it: [sqs.send_message], which returns a
    message id or raises, and the clock read for the batch of each
    ordinal. *)
Record queue : Type := {
  send_message : send_request -> res string;
  clock : nat -> string
}.

(** The request built for the batch that starts at index [i]. *)
Definition batch_request (q : queue) (batch_size : nat)
    (fires : list fire_record) (i : nat) : send_request :=
  let batch := take batch_size (drop i fires) in
  {| MessageBody := {| message_fires := batch;
                       batch_id := "batch_" +:+ pretty (i / batch_size);
                       timestamp := clock q (i / batch_size) |};
     batch_size_attribute := pretty (length batch) |}.

(** The body of [for i in range(0, len(fires), batch_size)]: the count so
    far and the requests made so far. *)
Definition send_step (q : queue) (batch_size : nat) (fires : list fire_record)
    (acc : nat * list send_request) (i : nat) : nat * list send_request :=
  let request := batch_request q batch_size fires i in
  match send_message q request with
  | Ret _ =>
      (acc.1 + length (message_fires (MessageBody request)), acc.2 ++ [request])
  | Raise _ => (acc.1, acc.2 ++ [request])
  end.

(** [send_to_queue(fires, batch_size)]: the count returned and the requests
    made. [range] raises on a step of zero and is empty on a negative one. *)
Definition send_to_queue (q : queue) (fires : list fire_record)
    (batch_size : Z) : res (nat * list send_request) :=
  if decide (batch_size = 0)%Z
  then Raise (ValueError "range() arg 3 must not be zero")
  else if decide (batch_size < 0)%Z then Ret (0, [])
  else Ret (foldl (send_step q (Z.to_nat batch_size) fires) (0, [])
                  (range_from_zero (length fires) (Z.to_nat batch_size))).

(** What [urlopen] of the feed, reading and decoding give: the decoded
    body, or an exception ([HTTPError] with its code among them). *)
Inductive feed_reply : Type :=
| FeedBody (data : string)
| FeedRaises (e : exn).

(** What the outside world answers during one run of the Fetcher: the
    secrets manager (the decoded secret, or an exception), the feed by URL,
    and the queue. *)
Record fetcher_env : Type := {
  secret : res ProcessFires.decoded;
  feed : string -> feed_reply;
  fire_queue : queue
}.

(** [get_secret(secret_name)]: the decoded secret, or the empty dict when
    anything raised. *)
Definition get_secret (reply : res ProcessFires.decoded)
    : ProcessFires.decoded :=
  match reply with
  | Ret v => v
  | Raise _ => ProcessFires.JDict ∅
  end.

(** [secret.get('map_key')]. *)
Definition get_map_key (v : ProcessFires.decoded) : res pyval :=
  match v with
  | ProcessFires.JDict d => Ret (get d "map_key" PNone)
  | ProcessFires.JOther _ => Raise (AttributeError "get")
  end.

Definition firms_url (map_key : pyval) : string :=
  "https://firms.modaps.eosdis.nasa.gov/api/area/csv" +:+ "/"
  +:+ py_str map_key +:+ "/" +:+ "VIIRS_SNPP_NRT" +:+ "/" +:+ "world"
  +:+ "/" +:+ "1".

(** [fetch_firms_data(map_key)] with the default source, area and range. *)
Definition fetch_firms_data (e : fetcher_env) (map_key : pyval)
    : res (list fire_record) :=
  match feed e (firms_url map_key) with
  | FeedBody data => Ret (parse_csv_data data)
  | FeedRaises (HTTPError code) =>
      if decide (code = 404)%Z then Ret [] else Raise (HTTPError code)
  | FeedRaises x => Raise x
  end.

(** The body of the Fetcher's answer. *)
Inductive fetch_body : Type :=
| NotConfigured
| NoActiveFires
| Fetched (fires_found fires_queued : nat)
| FetchError (error : exn).

Record fetch_response : Type := {
  statusCode : Z;
  body : fetch_body
}.

(** What a run did outside: the URLs requested of the feed and the requests
    sent to the queue. *)
Record fetch_trace : Type := {
  requested : list string;
  queued : list send_request
}.

(** The [try] block of the handler. *)
Definition handle (e : fetcher_env) : res fetch_response * fetch_trace :=
  match get_map_key (get_secret (secret e)) with
  | Raise x => (Raise x, {| requested := []; queued := [] |})
  | Ret map_key =>
      if negb (truthy map_key)
         || bool_decide (map_key = PStr "YOUR_MAP_KEY_HERE")
      then (Ret {| statusCode := 400; body := NotConfigured |},
            {| requested := []; queued := [] |})
      else
        let url := firms_url map_key in
        match fetch_firms_data e map_key with
        | Raise x => (Raise x, {| requested := [url]; queued := [] |})
        | Ret [] =>
            (Ret {| statusCode := 200; body := NoActiveFires |},
             {| requested := [url]; queued := [] |})
        | Ret fires =>
            match send_to_queue (fire_queue e) fires 10 with
            | Raise x => (Raise x, {| requested := [url]; queued := [] |})
            | Ret (sent_count, requests) =>
                (Ret {| statusCode := 200;
                        body := Fetched (length fires) sent_count |},
                 {| requested := [url]; queued := requests |})
            end
        end
  end.

(** [lambda_handler(event, context)] of the Fetcher: any exception of the
    [try] block is answered with status 500. *)
Definition lambda_handler (e : fetcher_env) : fetch_response * fetch_trace :=
  match handle e with
  | (Ret answer, trace) => (answer, trace)
  | (Raise x, trace) => ({| statusCode := 500; body := FetchError x |}, trace)
  end.

(** The detections of the requests that the queue accepted. *)
Definition accepted (q : queue) (requests : list send_request) : nat :=
  sum_list ((fun r => if send_message q r is Ret _
                      then length (message_fires (MessageBody r)) else 0)
            <$> requests).

(** The map key of the secret is usable: the secret decodes to an object
    whose [map_key] is truthy and is not the placeholder. *)
Definition configured (e : fetcher_env) (map_key : pyval) : Prop :=
  exists d, secret e = Ret (ProcessFires.JDict d)
    /\ d !! "map_key" = Some map_key
    /\ truthy map_key = true
    /\ map_key <> PStr "YOUR_MAP_KEY_HERE".

(** The detections carried by a list of requests. *)
Definition carried (requests : list send_request) : list (list fire_record) :=
  (fun r => message_fires (MessageBody r)) <$> requests.

(** *** Sample surroundings *)

(** A queue that refuses the batch of one ordinal and accepts the others. *)
Definition refusing (ordinal : string) : queue :=
  {| send_message := fun r =>
       if bool_decide (batch_id (MessageBody r) = ordinal)
       then Raise (ClientError "throttled") else Ret "message-id";
     clock := fun _ => "2024-01-15T06:12:00" |}.

Definition detection (x : pyfloat) : fire_record :=
  {| latitude := x; longitude := x; brightness := x; confidence := "n";
     frp := x; acq_date := "2024-01-15"; acq_time := "0612";
     satellite := "N"; instrument := "VIIRS"; daynight := "D" |}.

(** A secret that holds [map_key], and a Fetcher whose feed always gives
    the same reply. *)
Definition key_secret (map_key : pyval) : res ProcessFires.decoded :=
  Ret (ProcessFires.JDict {[ "map_key" := map_key ]}).

Definition fetcher (s : res ProcessFires.decoded) (reply : feed_reply)
    : fetcher_env :=
  {| secret := s; feed := fun _ => reply; fire_queue := refusing "batch_1" |}.

Definition two_rows : string :=
  csv [viirs_header;
       "34.0522,-118.2437,330.5,0.39,0.36,2024-01-15,0612,N,VIIRS,n,2.0NRT,290.1,12.5,D";
       "19.4326,-99.1332,345.0,0.45,0.38,2024-01-15,0754,N,VIIRS,h,2.0NRT,295.3,40.2,D"].

Lemma row_step_record header fires line :
  row_step header fires line
  = fires ++ option_list (row_record header line).
Proof.
  unfold row_step, row_record, row_dict.
  destruct (length (split comma line) <? length header)%nat; simpl.
  - by rewrite app_nil_r.
  - destruct (build_fire_record _); simpl; [done | by rewrite app_nil_r].
Qed.

Lemma row_steps_records header rows fires :
  foldl (row_step header) fires rows
  = fires ++ omap (row_record header) rows.
Proof.
  revert fires. induction rows as [|line rows IH]; intros fires.
  - simpl. by rewrite app_nil_r.
  - cbn [foldl omap list_omap]. rewrite IH, row_step_record.
    rewrite <- app_assoc. f_equal. by destruct (row_record header line).
Qed.








(** *** Dispatch to the queue *)

Lemma accepted_cons q r rs :
  accepted q (r :: rs)
  = (if send_message q r is Ret _
     then length (message_fires (MessageBody r)) else 0) + accepted q rs.
Proof. done. Qed.

Lemma accepted_app q rs rs' :
  accepted q (rs ++ rs') = accepted q rs + accepted q rs'.
Proof.
  induction rs as [|r rs IH]; [done|].
  rewrite <- app_comm_cons, !accepted_cons, IH. lia.
Qed.

Lemma send_loop q b fires idxs c rs :
  foldl (send_step q b fires) (c, rs) idxs
  = (c + accepted q (batch_request q b fires <$> idxs),
     rs ++ (batch_request q b fires <$> idxs)).
Proof.
  revert c rs. induction idxs as [|i idxs IH]; intros c rs.
  - cbn. by rewrite Nat.add_0_r, app_nil_r.
  - cbn [foldl]. rewrite fmap_cons, accepted_cons.
    unfold send_step at 2. cbn [fst snd].
    destruct (send_message q (batch_request q b fires i)) eqn:E;
      rewrite IH, <- app_assoc; cbn [app]; f_equal; cbn; lia.
Qed.

Lemma range_from_zero_lookup n b k i :
  0 < b ->
  range_from_zero n b !! k = Some i <-> i = k * b /\ k * b < n.
Proof.
  intros Hb. unfold range_from_zero. rewrite list_lookup_fmap.
  destruct (seq 0 ((n + b - 1) / b) !! k) as [k'|] eqn:E; simpl.
  - apply lookup_seq in E as [-> Hlt]. simpl. split.
    + intros [= <-]. split; [done|].
      assert (S k <= (n + b - 1) / b) as Hle by lia.
      pose proof (Nat.Div0.mul_div_le (n + b - 1) b) as Hm.
      assert (b * S k <= n + b - 1) by nia. nia.
    + by intros [-> _].
  - split; [done|]. intros [-> Hlt]. exfalso.
    assert ((n + b - 1) / b <= k) as Hge.
    { destruct (decide ((n + b - 1) / b <= k)) as [?|Hn]; [done|].
      rewrite lookup_seq_lt in E by lia. discriminate. }
    assert (S k <= (n + b - 1) / b); [|lia].
    apply Nat.div_le_lower_bound; nia.
Qed.

Lemma range_from_zero_length n b :
  length (range_from_zero n b) = (n + b - 1) / b.
Proof. unfold range_from_zero. by rewrite length_fmap, length_seq. Qed.

Lemma slices_concat {A} (l : list A) b m :
  concat ((fun k => take b (drop (k * b) l)) <$> seq 0 m) = take (m * b) l.
Proof.
  induction m as [|m IH]; [done|].
  rewrite seq_S, fmap_app, concat_app, IH. cbn [fmap list_fmap concat].
  rewrite app_nil_r, take_take_drop. f_equal. lia.
Qed.

(** What [send_to_queue] does for a positive batch size: one request for
    each multiple of the size below the number of fires, whatever the queue
    answers, and the count of the fires of the accepted requests. *)
Lemma send_to_queue_positive q fires (batch_size : Z) :
  (0 < batch_size)%Z ->
  send_to_queue q fires batch_size
  = Ret (accepted q (batch_request q (Z.to_nat batch_size) fires
                     <$> range_from_zero (length fires) (Z.to_nat batch_size)),
         batch_request q (Z.to_nat batch_size) fires
         <$> range_from_zero (length fires) (Z.to_nat batch_size)).
Proof.
  intros Hpos. unfold send_to_queue.
  rewrite decide_False by lia. rewrite decide_False by lia.
  by rewrite send_loop.
Qed.

Lemma carried_batches q b fires :
  0 < b ->
  concat (carried (batch_request q b fires <$> range_from_zero (length fires) b))
  = fires.
Proof.
  intros Hb. unfold carried, range_from_zero.
  rewrite <- !list_fmap_compose.
  etrans; [exact (slices_concat fires b ((length fires + b - 1) / b))|].
  apply take_ge.
  destruct (length fires) as [|n] eqn:E; [lia|].
  assert (S n + b - 1 < b * S ((S n + b - 1) / b)).
  { pose proof (Nat.div_mod_eq (S n + b - 1) b).
    pose proof (Nat.mod_upper_bound (S n + b - 1) b). lia. }
  nia.
Qed.

Lemma accepted_le q rs : accepted q rs <= length (concat (carried rs)).
Proof.
  induction rs as [|r rs IH]; [done|].
  rewrite accepted_cons. unfold carried in *.
  rewrite fmap_cons. cbn [concat]. rewrite length_app.
  destruct (send_message q r); lia.
Qed.

Lemma accepted_all q rs :
  (forall r, r ∈ rs -> exists id, send_message q r = Ret id) ->
  accepted q rs = length (concat (carried rs)).
Proof.
  induction rs as [|r rs IH]; intros H; [done|].
  rewrite accepted_cons. unfold carried in *.
  rewrite fmap_cons. cbn [concat]. rewrite length_app, IH.
  - destruct (H r) as [id ->]; [left|]. lia.
  - intros r' Hr'. apply H. by right.
Qed.

Lemma accepted_none q rs :
  (forall r, r ∈ rs -> exists x, send_message q r = Raise x) ->
  accepted q rs = 0.
Proof.
  induction rs as [|r rs IH]; intros H; [done|].
  rewrite accepted_cons, IH.
  - by destruct (H r) as [x ->]; [left|].
  - intros r' Hr'. apply H. by right.
Qed.

Lemma batches_lookup q b fires k r :
  0 < b ->
  (batch_request q b fires <$> range_from_zero (length fires) b) !! k = Some r ->
  message_fires (MessageBody r) = take b (drop (k * b) fires)
  /\ batch_id (MessageBody r) = "batch_" +:+ pretty k
  /\ 0 < length (message_fires (MessageBody r)) <= b
  /\ (S k < (length fires + b - 1) / b ->
      length (message_fires (MessageBody r)) = b)
  /\ batch_size_attribute r = pretty (length (message_fires (MessageBody r))).
Proof.
  intros Hb. rewrite list_lookup_fmap.
  destruct (range_from_zero (length fires) b !! k) as [i|] eqn:E; [|done].
  apply range_from_zero_lookup in E as [-> Hlt]; [|done].
  intros [= <-]. cbn [batch_request MessageBody message_fires batch_id
                      batch_size_attribute].
  rewrite Nat.div_mul by lia. rewrite length_take, length_drop.
  split_and!; [done | done | lia | lia | | done].
  intros Hnext.
  assert (S k * b < length fires); [|lia].
  assert (range_from_zero (length fires) b !! S k = Some (S k * b)) as Hk.
  { unfold range_from_zero. rewrite list_lookup_fmap, lookup_seq_lt by lia.
    done. }
  by apply range_from_zero_lookup in Hk as [_ ?].
Qed.

(** X1. For a positive batch size, [send_to_queue] makes one request for
    each batch, whatever the queue answers to the others: the batches are
    the consecutive slices of the fires, their concatenation is the list of
    fires, none is empty, all but the last have the batch size, and the
    batch of ordinal [k] is tagged [batch_k] with its length as attribute. *)
Theorem send_to_queue_batches (q : queue) (fires : list fire_record)
    (batch_size : Z) :
  (0 < batch_size)%Z ->
  let b := Z.to_nat batch_size in
  exists sent_count requests,
    send_to_queue q fires batch_size = Ret (sent_count, requests)
    /\ concat (carried requests) = fires
    /\ length requests = (length fires + b - 1) / b
    /\ forall k r, requests !! k = Some r ->
         message_fires (MessageBody r) = take b (drop (k * b) fires)
         /\ batch_id (MessageBody r) = "batch_" +:+ pretty k
         /\ 0 < length (message_fires (MessageBody r)) <= b
         /\ (S k < length requests ->
             length (message_fires (MessageBody r)) = b)
         /\ batch_size_attribute r
            = pretty (length (message_fires (MessageBody r))).
Proof.
  intros Hpos b. assert (0 < b) as Hb by (unfold b; lia).
  eexists _, _. split; [by apply send_to_queue_positive|]. fold b.
  split; [by apply carried_batches|].
  split; [by rewrite length_fmap, range_from_zero_length|].
  intros k r Hr. rewrite length_fmap, range_from_zero_length.
  by apply (batches_lookup q).
Qed.

(** X2. The count [send_to_queue] returns is the number of fires of the
    requests the queue accepted: a refused batch is left out of the count
    and stops nothing. It is never more than the number of fires, it is the
    number of fires when every request is accepted, and zero when none
    is. *)
Theorem send_to_queue_count (q : queue) (fires : list fire_record)
    (batch_size : Z) :
  (0 < batch_size)%Z ->
  exists sent_count requests,
    send_to_queue q fires batch_size = Ret (sent_count, requests)
    /\ sent_count = accepted q requests
    /\ sent_count <= length fires
    /\ ((forall r, r ∈ requests -> exists id, send_message q r = Ret id) ->
        sent_count = length fires)
    /\ ((forall r, r ∈ requests -> exists x, send_message q r = Raise x) ->
        sent_count = 0).
Proof.
  intros Hpos. assert (0 < Z.to_nat batch_size) as Hb by lia.
  eexists _, _. split; [by apply send_to_queue_positive|].
  pose proof (carried_batches q (Z.to_nat batch_size) fires Hb) as Hall.
  set (requests := batch_request q (Z.to_nat batch_size) fires <$> _) in *.
  assert (length fires = length (concat (carried requests))) as ->
    by (by rewrite Hall).
  split_and!.
  - done.
  - apply accepted_le.
  - apply accepted_all.
  - apply accepted_none.
Qed.

(** *** The handler *)

Lemma configured_gate e map_key :
  configured e map_key ->
  get_map_key (get_secret (secret e)) = Ret map_key
  /\ negb (truthy map_key) || bool_decide (map_key = PStr "YOUR_MAP_KEY_HERE")
     = false.
Proof.
  intros (d & -> & Hk & Ht & Hne). cbn. unfold get. rewrite Hk, Ht.
  split; [done|]. cbn. by apply bool_decide_eq_false.
Qed.

Lemma length_omap_le {A B} (f : A -> option B) (l : list A) :
  length (omap f l) <= length l.
Proof. induction l as [|x l IH]; [done|]. cbn. destruct (f x); cbn; lia. Qed.

(** X3. Without a usable map key the Fetcher answers 400 and touches
    nothing: when the secret could not be loaded, or holds no [map_key], a
    falsy one or the placeholder, the feed is not requested and nothing is
    queued. *)
Theorem lambda_handler_unconfigured (e : fetcher_env) :
  (forall v, secret e <> Ret (ProcessFires.JOther v)) ->
  (forall map_key, ~ configured e map_key) ->
  lambda_handler e
  = ({| statusCode := 400; body := NotConfigured |},
     {| requested := []; queued := [] |}).
Proof.
  intros Hobj Hnot. unfold lambda_handler, handle.
  destruct (secret e) as [[d|v]|x] eqn:E; cbn.
  - unfold get. destruct (d !! "map_key") as [k|] eqn:Hk; [|done].
    cbn. destruct (truthy k) eqn:Ht; [|done]. cbn.
    case_bool_decide as Hp; [done|].
    destruct (Hnot k). by exists d.
  - by destruct (Hobj v).
  - done.
Qed.


(** X5. When the feed gives fires, the Fetcher answers 200 whatever the
    queue does: [fires_found] is the number of records parsed, every one of
    them is put in exactly one request, in order, ten to a request (the
    last may hold fewer, none is empty), and [fires_queued] counts the fires
    of the requests the queue accepted. *)
Theorem lambda_handler_queues_every_fire (e : fetcher_env) (map_key : pyval)
    (data : string) :
  configured e map_key ->
  feed e (firms_url map_key) = FeedBody data ->
  parse_csv_data data <> [] ->
  let fires := parse_csv_data data in
  exists sent_count requests,
    lambda_handler e
    = ({| statusCode := 200; body := Fetched (length fires) sent_count |},
       {| requested := [firms_url map_key]; queued := requests |})
    /\ concat (carried requests) = fires
    /\ length requests = (length fires + 9) / 10
    /\ Forall (fun r => 0 < length (message_fires (MessageBody r)) <= 10)
              requests
    /\ sent_count = accepted (fire_queue e) requests
    /\ sent_count <= length fires.
Proof.
  intros Hc Hfeed Hsome fires.
  destruct (configured_gate _ _ Hc) as [Hk Hg].
  unfold lambda_handler, handle. rewrite Hk, Hg. unfold fetch_firms_data.
  rewrite Hfeed. fold fires.
  destruct fires as [|fire rest] eqn:Hfires; [done|]. rewrite <- Hfires.
  rewrite send_to_queue_positive by lia.
  change (Z.to_nat 10) with 10.
  pose proof (carried_batches (fire_queue e) 10 fires ltac:(lia)) as Hall.
  set (requests := batch_request (fire_queue e) 10 fires <$> _) in *.
  eexists _, _. split; [done|]. split_and!.
  - done.
  - unfold requests. rewrite length_fmap, range_from_zero_length.
    f_equal. lia.
  - apply Forall_lookup. intros k r Hr.
    by destruct (batches_lookup (fire_queue e) 10 fires k r ltac:(lia) Hr)
      as (_ & _ & ? & _).
  - done.
  - assert (length fires = length (concat (carried requests))) as ->
      by (by rewrite Hall).
    apply accepted_le.
Qed.

(** X6. A body that is blank or holds only the header line gives no
    record, and there are never more records than lines after the
    header. *)
Theorem parse_csv_data_bound (csv_data : string) :
  let lines := split newline (strip csv_data) in
  length (parse_csv_data csv_data) <= length lines - 1
  /\ (length lines < 2 -> parse_csv_data csv_data = []).
Proof.
  intros lines. unfold parse_csv_data. fold lines.
  destruct (length lines <? 2)%nat eqn:E.
  - split; [cbn; lia | done].
  - apply Nat.ltb_ge in E. split; [|lia].
    destruct lines as [|header_line rows]; [cbn; lia|].
    rewrite row_steps_records. cbn. pose proof (length_omap_le (row_record (split comma header_line)) rows). lia.
Qed.

(** *** White space around the body *)

Ltac bools :=
  repeat match goal with
  | H : _ && _ = true |- _ => apply andb_true_iff in H as [? ?]
  | H : _ || _ = true |- _ => apply orb_true_iff in H as [?|?]
  | H : (_ =? _)%nat = true |- _ => apply Nat.eqb_eq in H
  | H : (_ <=? _)%nat = true |- _ => apply Nat.leb_le in H
  | H : _ && _ = false |- _ => apply andb_false_iff in H as [?|?]
  | H : _ || _ = false |- _ => apply orb_false_iff in H as [? ?]
  | H : (_ =? _)%nat = false |- _ => apply Nat.eqb_neq in H
  | H : (_ <=? _)%nat = false |- _ => apply Nat.leb_gt in H
  end.

Lemma is_space1_lead c : is_space1 c = true -> continuation c = false.
Proof.
  unfold is_space1, continuation. intros H.
  destruct ((128 <=? nat_of_ascii c)%nat && (nat_of_ascii c <=? 191)%nat) eqn:E;
    [|done].
  cbv zeta in H. bools; lia.
Qed.

Lemma is_space2_bytes c c1 :
  is_space2 c c1 = true ->
  is_space1 c = false /\ continuation c = false /\ continuation c1 = true.
Proof.
  unfold is_space2, is_space1, continuation. intros H. bools.
  all: repeat split;
    repeat match goal with
    | |- _ && _ = true => apply andb_true_iff; split
    | |- (_ <=? _)%nat = true => apply Nat.leb_le; lia
    | |- ?b = false => destruct b eqn:?; [exfalso; bools; lia | done]
    end.
Qed.

Lemma is_space3_bytes c c1 c2 :
  is_space3 c c1 c2 = true ->
  is_space1 c = false /\ continuation c = false
  /\ continuation c1 = true /\ continuation c2 = true.
Proof.
  unfold is_space3, is_space1, continuation. cbv zeta. intros H. bools.
  all: repeat split;
    repeat match goal with
    | |- _ && _ = true => apply andb_true_iff; split
    | |- (_ <=? _)%nat = true => apply Nat.leb_le; lia
    | |- ?b = false => destruct b eqn:?; [exfalso; bools; lia | done]
    end.
Qed.

Lemma lead_not_second x y :
  continuation y = false -> is_space2 x y = false.
Proof.
  intros Hy. destruct (is_space2 x y) eqn:E; [|done].
  apply is_space2_bytes in E as (_ & _ & E). congruence.
Qed.

Lemma lead_not_third x y z :
  continuation y = false ->
  is_space3 x y z = false /\ is_space3 x z y = false.
Proof.
  intros Hy. split.
  - destruct (is_space3 x y z) eqn:E; [|done].
    apply is_space3_bytes in E as (_ & _ & E & _). congruence.
  - destruct (is_space3 x z y) eqn:E; [|done].
    apply is_space3_bytes in E as (_ & _ & _ & E). congruence.
Qed.

Lemma continuation_not_lead c :
  continuation c = true ->
  is_space1 c = false /\ (forall y, is_space2 c y = false)
  /\ (forall y z, is_space3 c y z = false).
Proof.
  intros Hc. split_and!.
  - destruct (is_space1 c) eqn:E; [|done].
    apply is_space1_lead in E. congruence.
  - intros y. destruct (is_space2 c y) eqn:E; [|done].
    apply is_space2_bytes in E as (_ & E & _). congruence.
  - intros y z. destruct (is_space3 c y z) eqn:E; [|done].
    apply is_space3_bytes in E as (_ & E & _). congruence.
Qed.

Lemma append_nil_l s : "" +:+ s = s.
Proof. done. Qed.

Lemma append_cons c a b : String c a +:+ b = String c (a +:+ b).
Proof. done. Qed.

Lemma append_nil_r s : s +:+ "" = s.
Proof. induction s as [|c s IH]; [done|]. by rewrite append_cons, IH. Qed.

Lemma lstrip_space_head s :
  lstrip s = match space_head s with Some r => lstrip r | None => s end.
Proof.
  destruct s as [|c [|c1 [|c2 r]]]; cbn [lstrip space_head]; [done|..].
  - by destruct (is_space1 c).
  - destruct (is_space1 c); [done|]. by destruct (is_space2 c c1).
  - destruct (is_space1 c); [done|]. destruct (is_space2 c c1); [done|].
    by destruct (is_space3 c c1 c2).
Qed.

(** The shapes of a white space character. *)
Lemma white_space_shape sp :
  white_space sp ->
  (exists c, sp = String c "" /\ is_space1 c = true)
  \/ (exists c c1, sp = String c (String c1 "") /\ is_space2 c c1 = true)
  \/ (exists c c1 c2, sp = String c (String c1 (String c2 ""))
        /\ is_space3 c c1 c2 = true).
Proof.
  unfold white_space.
  destruct sp as [|c [|c1 [|c2 r]]]; cbn [space_head]; [done|..].
  - destruct (is_space1 c) eqn:E; [|done]. intros _. left. by exists c.
  - destruct (is_space1 c) eqn:E; [done|].
    destruct (is_space2 c c1) eqn:E2; [|done]. intros _. right. left.
    by exists c, c1.
  - destruct (is_space1 c) eqn:E; [done|].
    destruct (is_space2 c c1) eqn:E2; [done|].
    destruct (is_space3 c c1 c2) eqn:E3; [|done]. intros [= ->].
    right. right. by exists c, c1, c2.
Qed.

Lemma white_space_starts_clean sp b : white_space sp -> starts_clean (sp +:+ b).
Proof.
  intros [(c & -> & H) | [(c & c1 & -> & H) | (c & c1 & c2 & -> & H)]]%white_space_shape;
    cbn.
  - by apply is_space1_lead.
  - by apply is_space2_bytes in H as (_ & ? & _).
  - by apply is_space3_bytes in H as (_ & ? & _).
Qed.

Lemma space_head_append a b r :
  space_head a = Some r -> space_head (a +:+ b) = Some (r +:+ b).
Proof.
  destruct a as [|c [|c1 [|c2 a]]]; rewrite ?append_cons, ?append_nil_l;
    cbn [space_head]; [done|..].
  - destruct (is_space1 c); [|done]. intros [= <-].
    rewrite append_nil_l. by destruct b.
  - destruct (is_space1 c) eqn:E.
    { intros [= <-]. by rewrite append_cons, append_nil_l. }
    destruct (is_space2 c c1); [|done]. intros [= <-].
    rewrite append_nil_l. by destruct b.
  - destruct (is_space1 c) eqn:E.
    { intros [= <-]. by rewrite !append_cons. }
    destruct (is_space2 c c1).
    { intros [= <-]. by rewrite append_cons. }
    destruct (is_space3 c c1 c2); [|done]. by intros [= <-].
Qed.

Lemma space_head_none_append a b :
  space_head a = None -> a <> "" -> starts_clean b ->
  space_head (a +:+ b) = None.
Proof.
  destruct a as [|c [|c1 [|c2 a]]]; rewrite ?append_cons, ?append_nil_l;
    cbn [space_head]; [done|..]; intros H _ Hb.
  - destruct (is_space1 c); [done|].
    destruct b as [|y [|z b]]; cbn in Hb; [done|..].
    + by rewrite (lead_not_second c y Hb).
    + rewrite (lead_not_second c y Hb).
      by rewrite (proj1 (lead_not_third c y z Hb)).
  - destruct (is_space1 c); [done|]. destruct (is_space2 c c1); [done|].
    destruct b as [|y b]; cbn in Hb; [done|].
    by rewrite (proj2 (lead_not_third c y c1 Hb)).
  - destruct (is_space1 c); [done|]. destruct (is_space2 c c1); [done|].
    by destruct (is_space3 c c1 c2).
Qed.

Lemma space_head_shorter a r :
  space_head a = Some r -> String.length r < String.length a.
Proof.
  destruct a as [|c [|c1 [|c2 a]]]; cbn [space_head]; [done|..].
  - destruct (is_space1 c); [|done]. intros [= <-]. cbn. lia.
  - destruct (is_space1 c); [intros [= <-]; cbn; lia|].
    destruct (is_space2 c c1); [|done]. intros [= <-]. cbn. lia.
  - destruct (is_space1 c); [intros [= <-]; cbn; lia|].
    destruct (is_space2 c c1); [intros [= <-]; cbn; lia|].
    destruct (is_space3 c c1 c2); [|done]. intros [= <-]. cbn. lia.
Qed.

Lemma lstrip_leading_space sp s : white_space sp -> lstrip (sp +:+ s) = lstrip s.
Proof.
  intros H. rewrite lstrip_space_head.
  by rewrite (space_head_append sp s "" H), append_nil_l.
Qed.

Lemma lstrip_trailing_space a sp :
  white_space sp ->
  lstrip (a +:+ sp) = if lstrip a is "" then "" else lstrip a +:+ sp.
Proof.
  intros Hsp. remember (String.length a) as n eqn:Hn. revert a Hn.
  induction n as [n IH] using lt_wf_ind. intros a ->.
  rewrite (lstrip_space_head a).
  destruct (space_head a) as [r|] eqn:E.
  - rewrite lstrip_space_head, (space_head_append a sp r E).
    by apply (IH (String.length r)); [apply space_head_shorter|].
  - destruct a as [|c a].
    + rewrite append_nil_l.
      pose proof (lstrip_leading_space sp "" Hsp) as H.
      by rewrite append_nil_r in H.
    + rewrite lstrip_space_head, space_head_none_append; [done..|].
      pose proof (white_space_starts_clean sp "" Hsp) as H.
      by rewrite append_nil_r in H.
Qed.

Lemma rev_app_append a b acc :
  String.rev_app (a +:+ b) acc = String.rev_app b (String.rev_app a acc).
Proof.
  revert acc. induction a as [|c a IH]; intros acc; [done|].
  rewrite append_cons. cbn [String.rev_app]. apply IH.
Qed.

Lemma lstrip_reversed_space sp x :
  white_space sp ->
  lstrip_reversed (String.rev_app sp x) = lstrip_reversed x.
Proof.
  intros [(c & -> & H) | [(c & c1 & -> & H) | (c & c1 & c2 & -> & H)]]%white_space_shape;
    cbn [String.rev_app lstrip_reversed].
  - by rewrite H.
  - destruct (is_space2_bytes _ _ H) as (_ & _ & Hc1).
    destruct (continuation_not_lead _ Hc1) as (-> & _). by rewrite H.
  - destruct (is_space3_bytes _ _ _ H) as (_ & _ & Hc1 & Hc2).
    destruct (continuation_not_lead _ Hc2) as (-> & _).
    destruct (continuation_not_lead _ Hc1) as (_ & -> & _). by rewrite H.
Qed.

Lemma strip_outer_space s sp :
  white_space sp -> strip (s +:+ sp) = strip s /\ strip (sp +:+ s) = strip s.
Proof.
  intros Hsp. unfold strip. split.
  - rewrite (lstrip_trailing_space s sp Hsp).
    destruct (lstrip s) as [|c' rest] eqn:E; [done|].
    unfold String.rev. rewrite rev_app_append.
    by rewrite (lstrip_reversed_space sp _ Hsp).
  - by rewrite (lstrip_leading_space sp s Hsp).
Qed.

(** X21. White space around the body of the feed is not read: a white
    space character before or after the body, of any of the code points
    that [str.strip] removes (the newline that ends the body, a no-break
    space, a line separator, ...), changes no record. *)
Theorem parse_csv_data_ignores_outer_space (csv_data sp : string) :
  white_space sp ->
  parse_csv_data (csv_data +:+ sp) = parse_csv_data csv_data
  /\ parse_csv_data (sp +:+ csv_data) = parse_csv_data csv_data.
Proof.
  intros Hsp. unfold parse_csv_data.
  destruct (strip_outer_space csv_data sp Hsp) as [-> ->]. done.
Qed.

End Parser.

(** *** The parser run on concrete responses *)

(** The example of the specification: three rows that parse and one whose
    latitude is [abc] give three records, in the order of the rows. *)
Example three_valid_rows_and_one_malformed :
  let parsed :=
    parse_csv_data string literal_float "0"
      (csv [viirs_header;
            "34.0522,-118.2437,330.5,0.39,0.36,2024-01-15,0612,N,VIIRS,n,2.0NRT,290.1,12.5,D";
            "abc,-120.5,301.2,0.4,0.4,2024-01-15,0612,N,VIIRS,l,2.0NRT,288.0,3.1,D";
            "19.4326,-99.1332,345.0,0.45,0.38,2024-01-15,0754,N,VIIRS,h,2.0NRT,295.3,40.2,D";
            "-33.8688,151.2093,310.7,0.5,0.41,2024-01-15,1502,N,VIIRS,n,2.0NRT,289.9,7.8,N"]) in
  length parsed = 3
  /\ latitude string <$> parsed = ["34.0522"; "19.4326"; "-33.8688"]
  /\ longitude string <$> parsed = ["-118.2437"; "-99.1332"; "151.2093"].
Proof.
  cbv zeta. split_and!; by vm_compute.
Qed.



(** *** The Fetcher run on concrete surroundings *)

(** Twenty-five fires go out as batches of 10, 10 and 5; the queue refuses
    the second, and fifteen fires are counted. *)
Example twenty_five_fires :
  exists requests,
    send_to_queue string (refusing string "batch_1")
      (replicate 25 (detection string "1.0")) 10 = Ret (15, requests)
    /\ batch_id string <$> (MessageBody string <$> requests)
       = ["batch_0"; "batch_1"; "batch_2"]
    /\ batch_size_attribute string <$> requests = ["10"; "10"; "5"].
Proof. eexists. vm_compute. done. Qed.

Lemma send_to_queue_batches_witness :
  let b := Z.to_nat 10 in
  exists sent_count requests,
    send_to_queue string (refusing string "batch_1")
      (replicate 25 (detection string "1.0")) 10 = Ret (sent_count, requests)
    /\ concat (carried string requests) = replicate 25 (detection string "1.0")
    /\ length requests = (length (replicate 25 (detection string "1.0")) + b - 1) / b
    /\ forall k r, requests !! k = Some r ->
         message_fires string (MessageBody string r)
         = take b (drop (k * b) (replicate 25 (detection string "1.0")))
         /\ batch_id string (MessageBody string r) = "batch_" +:+ pretty k
         /\ 0 < length (message_fires string (MessageBody string r)) <= b
         /\ (S k < length requests ->
             length (message_fires string (MessageBody string r)) = b)
         /\ batch_size_attribute string r
            = pretty (length (message_fires string (MessageBody string r))).
Proof.
  apply (send_to_queue_batches string (refusing string "batch_1")
           (replicate 25 (detection string "1.0")) 10).
  lia.
Defined.

Lemma send_to_queue_count_witness :
  exists sent_count requests,
    send_to_queue string (refusing string "batch_1")
      (replicate 25 (detection string "1.0")) 10 = Ret (sent_count, requests)
    /\ sent_count = accepted string (refusing string "batch_1") requests
    /\ sent_count <= length (replicate 25 (detection string "1.0"))
    /\ ((forall r, r ∈ requests ->
         exists id, send_message string (refusing string "batch_1") r = Ret id) ->
        sent_count = length (replicate 25 (detection string "1.0")))
    /\ ((forall r, r ∈ requests ->
         exists x, send_message string (refusing string "batch_1") r = Raise x) ->
        sent_count = 0).
Proof.
  apply (send_to_queue_count string (refusing string "batch_1")
           (replicate 25 (detection string "1.0")) 10).
  lia.
Defined.

Lemma lambda_handler_unconfigured_witness :
  lambda_handler string literal_float "0"
    (fetcher string (key_secret (PStr "YOUR_MAP_KEY_HERE")) (FeedBody two_rows))
  = ({| statusCode := 400; body := NotConfigured |},
     {| requested := []; queued := [] |}).
Proof.
  apply lambda_handler_unconfigured.
  - intros v. discriminate.
  - intros map_key (d & [= <-] & Hk & _ & Hne).
    vm_compute in Hk. by injection Hk as <-.
Defined.


Lemma lambda_handler_queues_every_fire_witness :
  let e := fetcher string (key_secret (PStr "0123456789abcdef"))
             (FeedBody two_rows) in
  let fires := parse_csv_data string literal_float "0" two_rows in
  exists sent_count requests,
    lambda_handler string literal_float "0" e
    = ({| statusCode := 200; body := Fetched (length fires) sent_count |},
       {| requested := [firms_url (PStr "0123456789abcdef")];
          queued := requests |})
    /\ concat (carried string requests) = fires
    /\ length requests = (length fires + 9) / 10
    /\ Forall (fun r =>
                 0 < length (message_fires string (MessageBody string r)) <= 10)
              requests
    /\ sent_count = accepted string (fire_queue string e) requests
    /\ sent_count <= length fires.
Proof.
  intros e.
  apply (lambda_handler_queues_every_fire string literal_float "0" e
           (PStr "0123456789abcdef") two_rows).
  - exists {[ "map_key" := PStr "0123456789abcdef" ]}.
    split_and!; [done | by vm_compute | done | discriminate].
  - done.
  - by vm_compute.
Defined.

(** A body that ends in a no-break space (U+00A0, the bytes C2 A0) after
    its last newline: the last cell is read without it. *)
Example body_ending_in_no_break_space :
  let nbsp := String (ascii_of_nat 194) (String (ascii_of_nat 160) "") in
  daynight string
  <$> parse_csv_data string literal_float "0"
        (two_rows +:+ String newline "" +:+ nbsp)
  = ["D"; "D"].
Proof. by vm_compute. Qed.

Lemma parse_csv_data_ignores_outer_space_witness :
  let nbsp := String (ascii_of_nat 194) (String (ascii_of_nat 160) "") in
  parse_csv_data string literal_float "0" (two_rows +:+ nbsp)
  = parse_csv_data string literal_float "0" two_rows
  /\ parse_csv_data string literal_float "0" (nbsp +:+ two_rows)
     = parse_csv_data string literal_float "0" two_rows.
Proof.
  intros nbsp. apply parse_csv_data_ignores_outer_space. reflexivity.
Defined.

End FetchFires.

(** ** [stream_processor.py]: the Change Notifier *)

Module StreamProcessor.

(** An attribute value of a stream image: [{'S': s}], [{'N': n}], or a
    value of another type. *)
Inductive attribute : Type :=
| AttrS (s : string)
| AttrN (n : string)
| AttrOther.

Abbreviation image := (gmap string attribute).

(** A record of the stream: [record['eventName']] and the images under
    [record['dynamodb']], either of which may be missing. *)
Record stream_record : Type := {
  eventName : string;
  NewImage : option image;
  OldImage : option image
}.

(** What is sent to the alert sink: the subject, the message, and the two
    message attributes ([countries] before [json.dumps]). *)
Record publish_request : Type := {
  Subject : string;
  Message : string;
  fire_count : string;
  countries : list string
}.

(** What the outside world answers during a delivery: [sns.publish], which
    returns a message id or raises, and the clock as [send_fire_alerts]
    prints it. *)
Record env : Type := {
  sns_publish : publish_request -> res string;
  now : string
}.

(** The body of the handler's answer: the statistics, or the message of the
    exception caught. *)
Inductive response_body : Type :=
| Summary (new_fires updated_fires removed_fires : nat)
| Failure (error : exn).

Record response : Type := {
  statusCode : Z;
  body : response_body
}.

Section Notifier.

(** The builtin [float] on strings ([None] for [ValueError]), [float(0)],
    and [format(x, '.df')] for a number of decimals [d]. *)
Variable pyfloat : Type.
Variable float : string -> option pyfloat.
Variable float_zero : pyfloat.
Variable format_fixed : nat -> pyfloat -> string.

(** The dict that [parse_dynamodb_item] builds. *)
Record fire : Type := {
  fire_id : string;
  latitude : pyfloat;
  longitude : pyfloat;
  brightness : pyfloat;
  confidence : string;
  frp : pyfloat;
  location_city : string;
  location_state : string;
  location_country : string;
  satellite : string;
  acq_date : string;
  acq_time : string
}.

(** What [parse_dynamodb_item] returns: that dict, or the empty dict of its
    [except] clause ([None]). *)
Abbreviation parsed := (option fire).

(** [dynamodb_item.get(k, {}).get('S', dflt)]. *)
Definition get_S (item : image) (k : string) (dflt : string) : string :=
  match item !! k with
  | Some (AttrS s) => s
  | _ => dflt
  end.

(** [float(dynamodb_item.get(k, {}).get('N', 0))]. *)
Definition get_N (item : image) (k : string) : option pyfloat :=
  match item !! k with
  | Some (AttrN n) => float n
  | _ => Some float_zero
  end.

Definition parse_dynamodb_item (item : image) : parsed :=
  lat ← get_N item "latitude";
  lon ← get_N item "longitude";
  bri ← get_N item "brightness";
  pow ← get_N item "frp";
  Some {| fire_id := get_S item "fire_id" "";
          latitude := lat;
          longitude := lon;
          brightness := bri;
          confidence := get_S item "confidence" "unknown";
          frp := pow;
          location_city := get_S item "location_city" "Unknown";
          location_state := get_S item "location_state" "Unknown";
          location_country := get_S item "location_country" "Unknown";
          satellite := get_S item "satellite" "";
          acq_date := get_S item "acq_date" "";
          acq_time := get_S item "acq_time" "" |}.

(** [fire.get(key, dflt)] on a parsed record. *)
Definition fire_get {A} (field : fire -> A) (dflt : A) (f : parsed) : A :=
  match f with Some r => field r | None => dflt end.

Definition country_of (f : parsed) : string :=
  fire_get location_country "Unknown" f.

(** The grouping loop of [send_fire_alerts]: [fires_by_country] is a dict,
    kept in insertion order; a new country is added at the end, a known one
    has the fire appended to its list. *)
Fixpoint add_fire (country : string) (f : parsed)
    (fires_by_country : list (string * list parsed))
    : list (string * list parsed) :=
  match fires_by_country with
  | [] => [(country, [f])]
  | (c, fs) :: rest =>
      if decide (c = country) then (c, fs ++ [f]) :: rest
      else (c, fs) :: add_fire country f rest
  end.

Definition group_by_country (fires : list parsed)
    : list (string * list parsed) :=
  foldl (fun d f => add_fire (country_of f) f d) [] fires.

(** [sorted(fires_by_country.items())]: the keys of a dict are distinct, so
    the items are ordered by country alone, as strings are compared (code
    point by code point, which on UTF-8 text is byte by byte). *)
Definition country_le (x y : string * list parsed) : Prop :=
  String.leb x.1 y.1.

Definition sorted_items (items : list (string * list parsed))
    : list (string * list parsed) :=
  merge_sort country_le items.

(** The two lines printed for a fire. *)
Definition detail_lines (f : parsed) : list string :=
  [ "  • " +:+ fire_get location_city "Unknown" f +:+ ", "
    +:+ fire_get location_state "Unknown" f +:+ " ("
    +:+ format_fixed 4 (fire_get latitude float_zero f) +:+ ", "
    +:+ format_fixed 4 (fire_get longitude float_zero f) +:+ ")";
    "    Confidence: " +:+ fire_get confidence "unknown" f +:+ ", FRP: "
    +:+ format_fixed 1 (fire_get frp float_zero f) +:+ " MW" ].

Definition country_line (country : string) (n : nat) : string :=
  "📍 " +:+ country +:+ ": " +:+ pretty n +:+ " fire(s)".

Definition overflow_line (k : nat) : string :=
  "  ... and " +:+ pretty k +:+ " more".

(** The body of [for country, country_fires in sorted(...)]. *)
Definition country_step (message_lines : list string)
    (item : string * list parsed) : list string :=
  let country_fires := item.2 in
  let message_lines :=
    message_lines ++ [""; country_line item.1 (length country_fires)] in
  let message_lines :=
    foldl (fun lines f => lines ++ detail_lines f) message_lines
          (take 5 country_fires) in
  if decide (5 < length country_fires)
  then message_lines ++ [overflow_line (length country_fires - 5)]
  else message_lines.

Definition rule : string := "─────────────────────".

Definition head_lines (total_fires : nat) : list string :=
  [ "Firewatch has detected " +:+ pretty total_fires +:+ " new active fire(s).";
    ""; "Summary by Country:"; rule ].

Definition foot_lines (time : string) : list string :=
  [ ""; rule; "Detection time: " +:+ time; "";
    "This is an automated alert from Firewatch." ].

(** The list [message_lines] when it is joined. *)
Definition message_lines (time : string) (fires : list parsed) : list string :=
  foldl country_step (head_lines (length fires))
        (sorted_items (group_by_country fires))
  ++ foot_lines time.

Definition build_request (time : string) (fires : list parsed)
    : publish_request :=
  {| Subject := "🔥 Firewatch Alert: " +:+ pretty (length fires)
                +:+ " New Fire(s) Detected";
     Message := String.concat (String (ascii_of_nat 10) EmptyString)
                              (message_lines time fires);
     fire_count := pretty (length fires);
     countries := (group_by_country fires).*1 |}.

(** [send_fire_alerts(fires)]: what it returns, and the requests it made.
    Its [except] clause prints and raises again. *)
Definition send_fire_alerts (e : env) (fires : list parsed)
    : res unit * list publish_request :=
  let request := build_request (now e) fires in
  match sns_publish e request with
  | Ret _ => (Ret tt, [request])
  | Raise x => (Raise x, [request])
  end.

(** The three lists filled by the handler's loop. *)
Record lists : Type := {
  new_fires : list parsed;
  updated_fires : list parsed;
  removed_fires : list parsed
}.

(** [record['dynamodb'][k]]. *)
Definition image_of (k : string) (o : option image) : res image :=
  match o with Some item => Ret item | None => Raise (KeyError k) end.

(** The body of [for record in event['Records']]. *)
Definition record_step (l : lists) (r : stream_record) : res lists :=
  if decide (eventName r = "INSERT") then
    item ← image_of "NewImage" (NewImage r);
    Ret {| new_fires := new_fires l ++ [parse_dynamodb_item item];
           updated_fires := updated_fires l;
           removed_fires := removed_fires l |}
  else if decide (eventName r = "MODIFY") then
    item ← image_of "NewImage" (NewImage r);
    Ret {| new_fires := new_fires l;
           updated_fires := updated_fires l ++ [parse_dynamodb_item item];
           removed_fires := removed_fires l |}
  else if decide (eventName r = "REMOVE") then
    item ← image_of "OldImage" (OldImage r);
    Ret {| new_fires := new_fires l;
           updated_fires := updated_fires l;
           removed_fires := removed_fires l ++ [parse_dynamodb_item item] |}
  else Ret l.

Fixpoint classify (l : lists) (records : list stream_record) : res lists :=
  match records with
  | [] => Ret l
  | r :: rest => l' ← record_step l r; classify l' rest
  end.

(** The [try] block of the handler. *)
Definition handle (e : env) (records : list stream_record)
    : res response * list publish_request :=
  match classify {| new_fires := []; updated_fires := []; removed_fires := [] |}
                 records with
  | Raise x => (Raise x, [])
  | Ret l =>
      let summary :=
        {| statusCode := 200;
           body := Summary (length (new_fires l)) (length (updated_fires l))
                           (length (removed_fires l)) |} in
      if new_fires l is [] then (Ret summary, [])
      else match send_fire_alerts e (new_fires l) with
           | (Ret _, calls) => (Ret summary, calls)
           | (Raise x, calls) => (Raise x, calls)
           end
  end.

(** [lambda_handler(event, context)], on the list [event['Records']]: any
    exception of the [try] block is caught and answered with status 500. *)
Definition lambda_handler (e : env) (records : list stream_record)
    : res response * list publish_request :=
  match handle e records with
  | (Ret answer, calls) => (Ret answer, calls)
  | (Raise x, calls) =>
      (Ret {| statusCode := 500; body := Failure x |}, calls)
  end.

(** *** What the theorems speak of *)

(** [fires_by_country.get(c, [])]. *)
Fixpoint assoc (c : string) (d : list (string * list parsed)) : list parsed :=
  match d with
  | [] => []
  | (c0, fs) :: rest => if decide (c0 = c) then fs else assoc c rest
  end.

(** What the grouping loop keeps true of the fires seen so far. *)
Definition grouped (seen : list parsed) (d : list (string * list parsed))
    : Prop :=
  NoDup d.*1
  /\ (forall c, assoc c d = filter (fun f => country_of f = c) seen)
  /\ (forall c, c ∈ d.*1 <-> assoc c d <> []).

(** The lines printed for one country. *)
Definition country_block (item : string * list parsed) : list string :=
  [""; country_line item.1 (length item.2)]
  ++ flat_map detail_lines (take 5 item.2)
  ++ (if decide (5 < length item.2)
      then [overflow_line (length item.2 - 5)] else []).

(** The images the handler reads are there: the new image of an INSERT or
    a MODIFY, the old image of a REMOVE. *)
Definition has_images (r : stream_record) : Prop :=
  (eventName r = "INSERT" \/ eventName r = "MODIFY" -> is_Some (NewImage r))
  /\ (eventName r = "REMOVE" -> is_Some (OldImage r)).

Definition count_events (name : string) (records : list stream_record) : nat :=
  length (filter (fun r => eventName r = name) records).

(** *** The deliveries of the examples *)

(** *** The helper and the notions of the further theorems *)

(** [format_fire_location(fire)]. *)
Definition format_fire_location (f : parsed) : string :=
  let city := fire_get location_city "Unknown" f in
  let state := fire_get location_state "Unknown" f in
  let country := fire_get location_country "Unknown" f in
  let parts :=
    (if decide (city <> "Unknown") then [city] else [])
    ++ (if decide (state <> "Unknown") then [state] else [])
    ++ (if decide (country <> "Unknown") then [country] else []) in
  if parts is [] then "Unknown Location" else String.concat ", " parts.

(** The attributes read with [float]. *)
Definition numeric_attributes : list string :=
  ["latitude"; "longitude"; "brightness"; "frp"].

(** The fires of the INSERT records of a delivery, in the order of the
    records. *)
Definition inserted (records : list stream_record) : list parsed :=
  omap (fun r => if decide (eventName r = "INSERT")
                 then parse_dynamodb_item <$> NewImage r else None) records.

(** A record lacks the image the handler reads for its event. *)
Definition lacks_image (r : stream_record) : Prop :=
  ((eventName r = "INSERT" \/ eventName r = "MODIFY") /\ NewImage r = None)
  \/ (eventName r = "REMOVE" /\ OldImage r = None).

(** A sink that accepts every request. *)
Definition sink_up (time : string) : env :=
  {| sns_publish := fun _ => Ret "message-id"; now := time |}.

(** A fire of a country, numbered. *)
Definition fire_in (country : string) (n : nat) : parsed :=
  Some {| fire_id := pretty n; latitude := float_zero; longitude := float_zero;
          brightness := float_zero; confidence := "n"; frp := float_zero;
          location_city := "City " +:+ pretty n; location_state := "State";
          location_country := country; satellite := "N";
          acq_date := "2024-01-15"; acq_time := "0612" |}.

(** A sink that refuses every request. *)
Definition sink_down (time : string) : env :=
  {| sns_publish := fun _ => Raise (ClientError "AuthorizationError");
     now := time |}.

Definition mexico_city : image :=
  dict [("fire_id", AttrS "19.4326_-99.1332_2024-01-15_0754");
        ("confidence", AttrS "h");
        ("location_city", AttrS "Mexico City");
        ("location_state", AttrS "Mexico City");
        ("location_country", AttrS "Mexico")].

(** The builtin [float] on plain decimal literals, for the examples. *)
Definition literal_float (s : string) : option string :=
  if plain_decimal s then Some s else None.

Definition tenochtitlan : image :=
  <["latitude" := AttrN "19.4326"]>
    (<["longitude" := AttrN "-99.1332"]>
       (<["frp" := AttrN "40.2"]> mexico_city)).

(** *** The order of strings *)

Lemma ascii_compare_lt_trans (a b c : ascii) :
  (a ?= b)%char = Lt -> (b ?= c)%char = Lt -> (a ?= c)%char = Lt.
Proof.
  unfold Ascii.compare. rewrite !N.compare_lt_iff. apply N.lt_trans.
Qed.

Lemma string_compare_lt_trans (s1 s2 s3 : string) :
  (s1 ?= s2)%string = Lt -> (s2 ?= s3)%string = Lt -> (s1 ?= s3)%string = Lt.
Proof.
  revert s2 s3. induction s1 as [|c1 s1 IH]; intros [|c2 s2] [|c3 s3];
    simpl; try done.
  destruct (c1 ?= c2)%char eqn:E12; [|clear IH|done].
  - apply Ascii.compare_eq_iff in E12 as ->.
    destruct (c2 ?= c3)%char; [apply IH | done | done].
  - intros _. destruct (c2 ?= c3)%char eqn:E23; [| |done].
    + apply Ascii.compare_eq_iff in E23 as <-. by rewrite E12.
    + by rewrite (ascii_compare_lt_trans c1 c2 c3).
Qed.

Lemma string_leb_trans (s1 s2 s3 : string) :
  String.leb s1 s2 -> String.leb s2 s3 -> String.leb s1 s3.
Proof.
  unfold String.leb.
  destruct (s1 ?= s2)%string eqn:E12; [| |done].
  - apply String.compare_eq_iff in E12 as ->. done.
  - intros _. destruct (s2 ?= s3)%string eqn:E23; [| |done].
    + apply String.compare_eq_iff in E23 as <-. by rewrite E12.
    + by rewrite (string_compare_lt_trans s1 s2 s3).
Qed.

Lemma string_leb_total (s1 s2 : string) :
  String.leb s1 s2 \/ String.leb s2 s1.
Proof.
  destruct (String.leb_total s1 s2) as [H|H]; rewrite H; [by left | by right].
Qed.

(** *** Grouping by country *)

Lemma assoc_add_fire c f d c' :
  assoc c' (add_fire c f d)
  = assoc c' d ++ (if decide (c = c') then [f] else []).
Proof.
  induction d as [|[c0 fs0] rest IH]; simpl.
  - done.
  - destruct (decide (c0 = c)) as [->|Hne]; simpl.
    + destruct (decide (c = c')); [done | by rewrite app_nil_r].
    + rewrite IH. destruct (decide (c0 = c')) as [->|]; [|done].
      destruct (decide (c = c')); [congruence | by rewrite app_nil_r].
Qed.

Lemma keys_add_fire c f d :
  (add_fire c f d).*1 = if decide (c ∈ d.*1) then d.*1 else d.*1 ++ [c].
Proof.
  induction d as [|[c0 fs0] rest IH]; [done|].
  cbn [add_fire]. destruct (decide (c0 = c)) as [->|Hne].
  - rewrite !fmap_cons. cbn [fst]. by rewrite decide_True by left.
  - rewrite !fmap_cons, IH. cbn [fst].
    destruct (decide (c ∈ rest.*1)) as [Hin|Hout].
    + by rewrite decide_True by (by right).
    + rewrite decide_False; [done|]. by intros [->|H]%elem_of_cons.
Qed.

Lemma elem_of_assoc d c fs :
  NoDup d.*1 -> (c, fs) ∈ d <-> c ∈ d.*1 /\ assoc c d = fs.
Proof.
  induction d as [|[c0 fs0] rest IH]; simpl; intros Hnd.
  - split; [by intros H%elem_of_nil | by intros [H%elem_of_nil _]].
  - apply NoDup_cons in Hnd as [Hout Hnd]. specialize (IH Hnd).
    rewrite !elem_of_cons, IH. destruct (decide (c0 = c)) as [->|Hne].
    + split.
      * intros [[= ->] | [Hin _]]; [by split; [left|] | done].
      * intros [_ ->]. by left.
    + split.
      * intros [[= <- _] | [Hin Heq]]; [done | by split; [right|]].
      * intros [[->|Hin] Heq]; [done | by right].
Qed.

Lemma grouped_add_fire seen d f :
  grouped seen d -> grouped (seen ++ [f]) (add_fire (country_of f) f d).
Proof.
  intros (Hnd & Hassoc & Hkeys). split_and!.
  - rewrite keys_add_fire. destruct (decide _) as [Hin|Hout]; [done|].
    apply NoDup_app. split; [done|]. split; [|apply NoDup_singleton].
    by intros c Hc ->%list_elem_of_singleton.
  - intros c. by rewrite assoc_add_fire, filter_app, Hassoc.
  - intros c. rewrite assoc_add_fire, keys_add_fire.
    destruct (decide (country_of f ∈ d.*1)) as [Hin|Hout];
      destruct (decide (country_of f = c)) as [<-|Hne].
    + split; [intros _ | done]. by destruct (assoc _ d).
    + rewrite app_nil_r. apply Hkeys.
    + split; [intros _ | intros _; apply elem_of_app; right; left].
      by destruct (assoc _ d).
    + rewrite app_nil_r, elem_of_app, list_elem_of_singleton, <- Hkeys.
      split; [intros [?|?]; [done | congruence] | by left].
Qed.

Lemma grouped_foldl rest seen d :
  grouped seen d ->
  grouped (seen ++ rest) (foldl (fun d f => add_fire (country_of f) f d) d rest).
Proof.
  revert seen d. induction rest as [|f rest IH]; intros seen d H; simpl.
  - by rewrite app_nil_r.
  - replace (seen ++ f :: rest) with ((seen ++ [f]) ++ rest)
      by (by rewrite <- app_assoc).
    apply IH. by apply grouped_add_fire.
Qed.

Lemma grouped_nil : grouped [] [].
Proof.
  split_and!; [constructor | done |].
  intros c. split; [by intros H%elem_of_nil | done].
Qed.

Lemma group_by_country_grouped fires : grouped fires (group_by_country fires).
Proof. apply (grouped_foldl fires [] []), grouped_nil. Qed.

(** The groups: one for each country that occurs, holding the fires of that
    country in the order of arrival. *)
Lemma elem_of_group_by_country fires c fs :
  (c, fs) ∈ group_by_country fires
  <-> fs = filter (fun f => country_of f = c) fires /\ fs <> [].
Proof.
  destruct (group_by_country_grouped fires) as (Hnd & Hassoc & Hkeys).
  rewrite (elem_of_assoc _ _ _ Hnd), Hkeys, Hassoc. split.
  - intros [Hne <-]. done.
  - intros [-> Hne]. done.
Qed.

(** *** The order of the countries *)

#[local] Instance country_le_trans : Transitive country_le.
Proof. intros x y z. apply string_leb_trans. Qed.

#[local] Instance country_le_total : Total country_le.
Proof. intros x y. apply string_leb_total. Qed.

Lemma sorted_items_keys items :
  StronglySorted (fun a b => String.leb a b) (sorted_items items).*1.
Proof.
  pose proof (StronglySorted_merge_sort country_le items) as H.
  fold (sorted_items items) in H.
  induction H as [|x l Hl IH Hx]; [constructor|].
  rewrite fmap_cons. constructor; [exact IH|].
  apply Forall_fmap. exact Hx.
Qed.

Lemma elem_of_sorted_items items x : x ∈ sorted_items items <-> x ∈ items.
Proof. unfold sorted_items. by rewrite merge_sort_Permutation. Qed.

Lemma sorted_items_NoDup items : NoDup items.*1 -> NoDup (sorted_items items).*1.
Proof.
  intros H. unfold sorted_items. by rewrite merge_sort_Permutation.
Qed.

(** *** The lines of the message *)

Lemma detail_loop lines fs :
  foldl (fun lines f => lines ++ detail_lines f) lines fs
  = lines ++ flat_map detail_lines fs.
Proof.
  revert lines. induction fs as [|f fs IH]; intros lines.
  - by rewrite app_nil_r.
  - cbn [foldl flat_map]. by rewrite IH, <- app_assoc.
Qed.

Lemma country_step_block lines item :
  country_step lines item = lines ++ country_block item.
Proof.
  unfold country_step, country_block. rewrite detail_loop.
  destruct (decide (5 < length item.2)); rewrite <- ?app_assoc; [done|].
  by rewrite app_nil_r.
Qed.

Lemma country_loop lines items :
  foldl country_step lines items = lines ++ flat_map country_block items.
Proof.
  revert lines. induction items as [|item items IH]; intros lines.
  - by rewrite app_nil_r.
  - cbn [foldl flat_map]. by rewrite IH, country_step_block, <- app_assoc.
Qed.

Lemma detail_lines_length fs :
  length (flat_map detail_lines fs) = 2 * length fs.
Proof. induction fs as [|f fs IH]; [done|]. cbn. rewrite IH. lia. Qed.

(** C7. The text of the alert, written out. The message is four head
    lines, one block for each country group and five foot lines, joined by
    newlines. The groups are those of [location_country] (a record that did
    not parse counts for [Unknown]): there is one for each country that
    occurs, no country twice, in increasing order of the country, and the
    fires of a group are the fires of that country in the order of arrival.
    The block of a group is a blank line, the line of the country with the
    size of the group, the detail of its first five fires (two lines for a
    fire: city, state and the coordinates to four decimals, then confidence
    and FRP to one decimal), and the line ["  ... and K more"], [K] being
    the size less five, exactly when the group has more than five fires. *)
Theorem alert_aggregation_shape (time : string) (fires : list parsed) :
  let country := fun f : parsed =>
    match f with Some r => location_country r | None => "Unknown" end in
  let detail := fun f : parsed =>
    [ "  • " +:+ match f with Some r => location_city r | None => "Unknown" end
      +:+ ", "
      +:+ match f with Some r => location_state r | None => "Unknown" end
      +:+ " ("
      +:+ format_fixed 4 match f with Some r => latitude r | None => float_zero end
      +:+ ", "
      +:+ format_fixed 4 match f with Some r => longitude r | None => float_zero end
      +:+ ")";
      "    Confidence: "
      +:+ match f with Some r => confidence r | None => "unknown" end
      +:+ ", FRP: "
      +:+ format_fixed 1 match f with Some r => frp r | None => float_zero end
      +:+ " MW" ] in
  let block := fun g : string * list parsed =>
    [ ""; "📍 " +:+ g.1 +:+ ": " +:+ pretty (length g.2) +:+ " fire(s)" ]
    ++ flat_map detail (take 5 g.2)
    ++ (if decide (5 < length g.2)
        then [ "  ... and " +:+ pretty (length g.2 - 5) +:+ " more" ]
        else []) in
  let groups := sorted_items (group_by_country fires) in
  message_lines time fires
  = [ "Firewatch has detected " +:+ pretty (length fires)
      +:+ " new active fire(s).";
      ""; "Summary by Country:"; "─────────────────────" ]
    ++ flat_map block groups
    ++ [ ""; "─────────────────────"; "Detection time: " +:+ time; "";
         "This is an automated alert from Firewatch." ]
  /\ Message (build_request time fires)
     = String.concat (String (ascii_of_nat 10) EmptyString)
                     (message_lines time fires)
  /\ StronglySorted (fun a b => String.leb a b) groups.*1
  /\ NoDup groups.*1
  /\ (forall c fs, (c, fs) ∈ groups
        <-> fs = filter (fun f => country f = c) fires /\ fs <> [])
  /\ (forall g, g ∈ groups ->
        length (flat_map detail (take 5 g.2)) = 2 * (length g.2 `min` 5)).
Proof.
  intros country detail block groups. split_and!.
  - unfold message_lines. fold groups.
    by rewrite country_loop, <- app_assoc.
  - done.
  - apply sorted_items_keys.
  - apply sorted_items_NoDup.
    by destruct (group_by_country_grouped fires) as (Hnd & _).
  - intros c fs. unfold groups.
    by rewrite elem_of_sorted_items, elem_of_group_by_country.
  - intros g _. change detail with detail_lines.
    rewrite detail_lines_length, length_take. lia.
Qed.

(** The examples of the specification. *)
Example five_mexico_two_usa :
  message_lines "t"
    [fire_in "Mexico" 1; fire_in "USA" 2; fire_in "Mexico" 3;
     fire_in "Mexico" 4; fire_in "USA" 5; fire_in "Mexico" 6;
     fire_in "Mexico" 7]
  = head_lines 7
    ++ ([""; "📍 Mexico: 5 fire(s)"]
        ++ flat_map detail_lines
             [fire_in "Mexico" 1; fire_in "Mexico" 3; fire_in "Mexico" 4;
              fire_in "Mexico" 6; fire_in "Mexico" 7])
    ++ ([""; "📍 USA: 2 fire(s)"]
        ++ flat_map detail_lines [fire_in "USA" 2; fire_in "USA" 5])
    ++ foot_lines "t".
Proof. by vm_compute. Qed.

Example six_mexico :
  message_lines "t"
    [fire_in "Mexico" 1; fire_in "Mexico" 2; fire_in "Mexico" 3;
     fire_in "Mexico" 4; fire_in "Mexico" 5; fire_in "Mexico" 6]
  = head_lines 6
    ++ ([""; "📍 Mexico: 6 fire(s)"]
        ++ flat_map detail_lines
             [fire_in "Mexico" 1; fire_in "Mexico" 2; fire_in "Mexico" 3;
              fire_in "Mexico" 4; fire_in "Mexico" 5]
        ++ ["  ... and 1 more"])
    ++ foot_lines "t".
Proof. by vm_compute. Qed.

(** *** The handler *)

(** The handler never raises: every exception of its [try] block is turned
    into an answer. *)
Lemma lambda_handler_returns e records :
  exists answer, (lambda_handler e records).1 = Ret answer.
Proof.
  unfold lambda_handler. destruct (handle e records) as [[answer|x] calls];
    by eexists.
Qed.

Lemma send_fire_alerts_raises e fires x :
  sns_publish e (build_request (now e) fires) = Raise x ->
  send_fire_alerts e fires = (Raise x, [build_request (now e) fires]).
Proof. intros H. unfold send_fire_alerts. by rewrite H. Qed.

(** A failed publish comes out of [send_fire_alerts] as an exception, and
    out of the handler as an answer with status 500. *)
Lemma publish_failure_answered e records l x :
  classify {| new_fires := []; updated_fires := []; removed_fires := [] |}
           records = Ret l ->
  new_fires l <> [] ->
  sns_publish e (build_request (now e) (new_fires l)) = Raise x ->
  send_fire_alerts e (new_fires l)
  = (Raise x, [build_request (now e) (new_fires l)])
  /\ lambda_handler e records
     = (Ret {| statusCode := 500; body := Failure x |},
        [build_request (now e) (new_fires l)]).
Proof.
  intros Hl Hne Hx. split; [by apply send_fire_alerts_raises|].
  unfold lambda_handler, handle. rewrite Hl.
  destruct (new_fires l) as [|f fs] eqn:E; [done|].
  by rewrite (send_fire_alerts_raises e (f :: fs) x Hx).
Qed.

(** C4 on the input where it fails: one INSERT, and a sink that refuses the
    publish. [send_fire_alerts] raises, the handler catches the exception
    and returns an answer with status 500: the invocation does not fail. *)
Theorem publish_failure_is_swallowed :
  let delivery :=
    [ {| eventName := "INSERT"; NewImage := Some mexico_city;
         OldImage := None |} ] in
  let fires := [parse_dynamodb_item mexico_city] in
  send_fire_alerts (sink_down "t") fires
  = (Raise (ClientError "AuthorizationError"), [build_request "t" fires])
  /\ lambda_handler (sink_down "t") delivery
     = (Ret {| statusCode := 500;
               body := Failure (ClientError "AuthorizationError") |},
        [build_request "t" fires]).
Proof.
  cbv zeta.
  apply (publish_failure_answered (sink_down "t") _
           {| new_fires := [parse_dynamodb_item mexico_city];
              updated_fires := []; removed_fires := [] |}).
  - reflexivity.
  - discriminate.
  - reflexivity.
Qed.

(** Records that are no INSERT leave [new_fires] as it is. *)
Lemma record_step_no_insert l r l' :
  eventName r <> "INSERT" -> record_step l r = Ret l' ->
  new_fires l' = new_fires l.
Proof.
  intros Hne. unfold record_step. rewrite decide_False by done.
  repeat case_decide.
  - destruct (NewImage r); simpl; [by intros [= <-] | done].
  - destruct (OldImage r); simpl; [by intros [= <-] | done].
  - by intros [= <-].
Qed.

Lemma classify_no_insert records l l' :
  Forall (fun r => eventName r <> "INSERT") records ->
  classify l records = Ret l' -> new_fires l' = new_fires l.
Proof.
  intros H. revert l. induction H as [|r records Hr _ IH]; intros l; simpl.
  - by intros [= <-].
  - destruct (record_step l r) as [l1|x] eqn:E; simpl; [|done].
    intros Hl'. rewrite (IH _ Hl'). by eapply record_step_no_insert.
Qed.

Lemma count_events_cons name r records :
  count_events name (r :: records)
  = (if decide (eventName r = name) then 1 else 0) + count_events name records.
Proof.
  unfold count_events. rewrite filter_cons. by destruct (decide _).
Qed.

Lemma classify_counts records l :
  Forall has_images records ->
  exists l', classify l records = Ret l'
    /\ length (new_fires l')
       = length (new_fires l) + count_events "INSERT" records
    /\ length (updated_fires l')
       = length (updated_fires l) + count_events "MODIFY" records
    /\ length (removed_fires l')
       = length (removed_fires l) + count_events "REMOVE" records.
Proof.
  intros H. revert l. induction H as [|r records [Hnew Hold] _ IH]; intros l.
  - exists l. cbn. split_and!; [done|lia..].
  - rewrite !count_events_cons. cbn [classify]. unfold record_step.
    destruct (decide (eventName r = "INSERT")) as [E|E].
    { destruct Hnew as [item ->]; [by left|]. simpl.
      edestruct IH as (l' & -> & H1 & H2 & H3). exists l'.
      rewrite !decide_False by (rewrite E; discriminate).
      simpl in *. rewrite length_app in H1. simpl in *.
      split_and!; [done | lia..]. }
    destruct (decide (eventName r = "MODIFY")) as [E1|E1].
    { destruct Hnew as [item ->]; [by right|]. simpl.
      edestruct IH as (l' & -> & H1 & H2 & H3). exists l'.
      rewrite !decide_False by (rewrite E1; discriminate).
      simpl in *. rewrite length_app in H2. simpl in *.
      split_and!; [done | lia..]. }
    destruct (decide (eventName r = "REMOVE")) as [E2|E2].
    { destruct Hold as [item ->]; [done|]. simpl.
      edestruct IH as (l' & -> & H1 & H2 & H3). exists l'.
      simpl in *. rewrite length_app in H3. simpl in *.
      split_and!; [done | lia..]. }
    simpl. destruct (IH l) as (l' & -> & H1 & H2 & H3). exists l'.
    split_and!; [done | lia..].
Qed.

(** C9. A delivery without INSERT makes no call to the sink, whatever it
    holds; when the images the handler reads are there, it is answered with
    status 200 and the statistics: no new fire, and the numbers of MODIFY
    and of REMOVE events. *)
Theorem no_insert_no_publish (e : env) (records : list stream_record) :
  Forall (fun r => eventName r <> "INSERT") records ->
  (lambda_handler e records).2 = []
  /\ (Forall has_images records ->
      (lambda_handler e records).1
      = Ret {| statusCode := 200;
               body := Summary 0 (count_events "MODIFY" records)
                               (count_events "REMOVE" records) |}).
Proof.
  intros Hno. unfold lambda_handler, handle.
  destruct (classify _ records) as [l|x] eqn:Hl.
  - pose proof (classify_no_insert records _ _ Hno Hl) as Hnew. simpl in Hnew.
    rewrite Hnew. split; [done|]. intros Himg.
    destruct (classify_counts records
                {| new_fires := []; updated_fires := []; removed_fires := [] |}
                Himg) as (l' & Hl' & _ & H2 & H3).
    rewrite Hl in Hl'. injection Hl' as <-. simpl in *. by rewrite H2, H3.
  - split; [done|]. intros Himg.
    destruct (classify_counts records
                {| new_fires := []; updated_fires := []; removed_fires := [] |}
                Himg) as (l' & Hl' & _).
    congruence.
Qed.

(** *** Parsing an image *)

Lemma get_N_None item k :
  get_N item k = None
  <-> exists n, item !! k = Some (AttrN n) /\ float n = None.
Proof.
  unfold get_N. destruct (item !! k) as [[s|n|]|].
  - split; [done | by intros (? & ? & _)].
  - split; [by exists n | by intros (? & [= <-] & ?)].
  - split; [done | by intros (? & ? & _)].
  - split; [done | by intros (? & ? & _)].
Qed.

(** X12. [parse_dynamodb_item] gives the empty dict exactly when one of
    latitude, longitude, brightness and FRP is a number attribute that
    [float] does not read; an attribute that is missing or of another type
    never makes it fail. *)
Theorem parse_dynamodb_item_None (item : image) :
  parse_dynamodb_item item = None
  <-> exists k n, k ∈ numeric_attributes
        /\ item !! k = Some (AttrN n) /\ float n = None.
Proof.
  assert (parse_dynamodb_item item = None
          <-> exists k, k ∈ numeric_attributes /\ get_N item k = None) as ->.
  { unfold parse_dynamodb_item, numeric_attributes.
    destruct (get_N item "latitude") eqn:E1,
             (get_N item "longitude") eqn:E2,
             (get_N item "brightness") eqn:E3,
             (get_N item "frp") eqn:E4; simpl;
      (split;
       [ first [ done
               | intros _; exists "latitude"; split; [set_solver | done]
               | intros _; exists "longitude"; split; [set_solver | done]
               | intros _; exists "brightness"; split; [set_solver | done]
               | intros _; exists "frp"; split; [set_solver | done] ]
       | intros (k & Hk & Hnone);
         repeat (apply elem_of_cons in Hk as [-> | Hk]);
         first [ by apply elem_of_nil in Hk | congruence | done ] ]). }
  split.
  - intros (k & Hk & (n & Hn & Hf)%get_N_None). by exists k, n.
  - intros (k & n & Hk & Hn & Hf). exists k. split; [done|].
    apply get_N_None. by exists n.
Qed.

Lemma parse_dynamodb_item_location item r :
  parse_dynamodb_item item = Some r ->
  location_city r = get_S item "location_city" "Unknown"
  /\ location_state r = get_S item "location_state" "Unknown"
  /\ location_country r = get_S item "location_country" "Unknown".
Proof.
  unfold parse_dynamodb_item.
  destruct (get_N item "latitude"); [|discriminate].
  destruct (get_N item "longitude"); [|discriminate].
  destruct (get_N item "brightness"); [|discriminate].
  destruct (get_N item "frp"); [|discriminate].
  simpl. by intros [= <-].
Qed.

(** X13. An image without a string attribute for city, state and country
    is displayed as [Unknown Location], whether it parses or not. *)
Theorem format_fire_location_unknown (item : image) :
  (forall k s, k ∈ ["location_city"; "location_state"; "location_country"] ->
               item !! k <> Some (AttrS s)) ->
  format_fire_location (parse_dynamodb_item item) = "Unknown Location".
Proof.
  intros Hnone.
  assert (forall k, k ∈ ["location_city"; "location_state"; "location_country"] ->
                    get_S item k "Unknown" = "Unknown") as Hget.
  { intros k Hk. unfold get_S. specialize (Hnone k).
    destruct (item !! k) as [[s|n|]|]; try done. by destruct (Hnone s Hk). }
  unfold format_fire_location.
  destruct (parse_dynamodb_item item) as [r|] eqn:E; cbn [fire_get].
  - apply parse_dynamodb_item_location in E as (-> & -> & ->).
    rewrite !Hget by set_solver. by rewrite !decide_False by (by intros H).
  - by rewrite !decide_False by (by intros H).
Qed.

(** *** The groups and the attributes of the request *)

Lemma group_sizes_add c f d :
  sum_list (length <$> (add_fire c f d).*2)
  = S (sum_list (length <$> d.*2)).
Proof.
  induction d as [|[c0 fs0] rest IH]; [done|].
  cbn [add_fire]. destruct (decide (c0 = c)) as [->|Hne].
  - rewrite !fmap_cons. cbn [snd sum_list sum_list_with].
    rewrite length_app. cbn [length]. unfold id. lia.
  - rewrite !fmap_cons. cbn [snd sum_list sum_list_with].
    rewrite IH. unfold id. lia.
Qed.

Lemma group_sizes fires d :
  sum_list (length <$>
            (foldl (fun d f => add_fire (country_of f) f d) d fires).*2)
  = sum_list (length <$> d.*2) + length fires.
Proof.
  revert d. induction fires as [|f fires IH]; intros d.
  - cbn. lia.
  - cbn [foldl]. rewrite IH, group_sizes_add. cbn [length]. lia.
Qed.

Lemma filter_not_nil {A} (P : A -> Prop) `{!forall x, Decision (P x)}
    (l : list A) :
  filter P l <> [] <-> exists x, x ∈ l /\ P x.
Proof.
  split.
  - destruct (filter P l) as [|x l'] eqn:E; [done|]. intros _.
    assert (x ∈ filter P l) as Hx by (rewrite E; left).
    apply list_elem_of_filter in Hx as [? ?]. by exists x.
  - intros (x & Hx & HP) E.
    assert (x ∈ filter P l) as Hin by (by apply list_elem_of_filter).
    rewrite E in Hin. by apply elem_of_nil in Hin.
Qed.

(** X14. The attributes of the request: [fire_count] is the number of
    fires; [countries] names each country once, a country being named
    exactly when one of the fires is of it, and a further fire adds its
    country at the end when it is new; the sizes of the groups add up to
    the number of fires, so every fire is in exactly one group. *)
Theorem request_attributes (time : string) (fires : list parsed) :
  let request := build_request time fires in
  fire_count request = pretty (length fires)
  /\ NoDup (countries request)
  /\ (forall c, c ∈ countries request
        <-> exists f, f ∈ fires /\ country_of f = c)
  /\ (forall f, countries (build_request time (fires ++ [f]))
        = if decide (country_of f ∈ countries request)
          then countries request
          else countries request ++ [country_of f])
  /\ sum_list (length <$> (group_by_country fires).*2) = length fires.
Proof.
  cbv zeta. cbn [build_request fire_count countries].
  destruct (group_by_country_grouped fires) as (Hnd & Hassoc & Hkeys).
  split_and!.
  - done.
  - done.
  - intros c. by rewrite Hkeys, Hassoc, filter_not_nil.
  - intros f. unfold group_by_country. rewrite foldl_app. cbn [foldl].
    apply keys_add_fire.
  - unfold group_by_country. by rewrite group_sizes.
Qed.

(** *** Deliveries with inserts *)

Lemma record_step_new_fires l r l' :
  record_step l r = Ret l' ->
  new_fires l' = new_fires l ++ inserted [r].
Proof.
  unfold record_step, inserted. cbn [omap list_omap].
  destruct (decide (eventName r = "INSERT")).
  { destruct (NewImage r); simpl; [by intros [= <-] | done]. }
  rewrite app_nil_r. repeat case_decide.
  - destruct (NewImage r); simpl; [by intros [= <-] | done].
  - destruct (OldImage r); simpl; [by intros [= <-] | done].
  - by intros [= <-].
Qed.

Lemma classify_new_fires records l l' :
  classify l records = Ret l' ->
  new_fires l' = new_fires l ++ inserted records.
Proof.
  revert l. induction records as [|r records IH]; intros l; simpl.
  - intros [= <-]. by rewrite app_nil_r.
  - destruct (record_step l r) as [l1|x] eqn:E; simpl; [|done].
    intros Hl'. rewrite (IH _ Hl'), (record_step_new_fires _ _ _ E).
    rewrite <- app_assoc. f_equal.
    unfold inserted. cbn [omap list_omap].
    by destruct (if decide (eventName r = "INSERT") then _ else _).
Qed.

(** X15. A delivery with at least one INSERT, whose records have the
    images the handler reads, makes exactly one request to the sink, for
    the fires of all its INSERT records together, MODIFY and REMOVE records
    adding nothing to it. When the sink accepts the request the answer is
    200 with the three counts; when it refuses, the answer is 500 with the
    error. *)
Theorem insert_delivery_publishes_once (e : env)
    (records : list stream_record) :
  Forall has_images records ->
  0 < count_events "INSERT" records ->
  let request := build_request (now e) (inserted records) in
  (lambda_handler e records).2 = [request]
  /\ length (inserted records) = count_events "INSERT" records
  /\ fire_count request = pretty (count_events "INSERT" records)
  /\ (forall id, sns_publish e request = Ret id ->
        (lambda_handler e records).1
        = Ret {| statusCode := 200;
                 body := Summary (count_events "INSERT" records)
                                 (count_events "MODIFY" records)
                                 (count_events "REMOVE" records) |})
  /\ (forall x, sns_publish e request = Raise x ->
        (lambda_handler e records).1
        = Ret {| statusCode := 500; body := Failure x |}).
Proof.
  intros Himg Hpos.
  destruct (classify_counts records
              {| new_fires := []; updated_fires := []; removed_fires := [] |}
              Himg) as (l & Hl & H1 & H2 & H3).
  pose proof (classify_new_fires _ _ _ Hl) as Hnew.
  cbn [new_fires updated_fires removed_fires length app] in *.
  rewrite Hnew in H1. cbn [Nat.add] in *.
  unfold lambda_handler, handle. rewrite Hl, Hnew, H1, H2, H3.
  destruct (inserted records) as [|f fs] eqn:E; [cbn in H1; lia|].
  rewrite <- E. cbv zeta. unfold send_fire_alerts.
  destruct (sns_publish e (build_request (now e) (inserted records)))
    as [id0|x0] eqn:Hp; cbn [fst snd];
    (split_and!;
       [done | done | by cbn [build_request fire_count]; rewrite E, H1 | |]).
  - done.
  - by intros x [=].
  - by intros id [=].
  - by intros x [= <-].
Qed.

Lemma record_step_raises l r x :
  record_step l r = Raise x -> exists k, x = KeyError k.
Proof.
  unfold record_step. repeat case_decide.
  - destruct (NewImage r); simpl; [done|]. intros [= <-]. by eexists.
  - destruct (NewImage r); simpl; [done|]. intros [= <-]. by eexists.
  - destruct (OldImage r); simpl; [done|]. intros [= <-]. by eexists.
  - done.
Qed.

Lemma record_step_lacks_image l r :
  lacks_image r -> exists k, record_step l r = Raise (KeyError k).
Proof.
  unfold record_step.
  intros [[[E|E] Hnew] | [E Hold]]; rewrite E; cbn.
  - rewrite Hnew. by eexists.
  - rewrite Hnew. by eexists.
  - rewrite Hold. by eexists.
Qed.

Lemma classify_lacks_image records l :
  Exists lacks_image records -> exists k, classify l records = Raise (KeyError k).
Proof.
  intros H. revert l. induction H as [r records Hr | r records _ IH]; intros l.
  - destruct (record_step_lacks_image l r Hr) as [k Hk]. exists k.
    simpl. by rewrite Hk.
  - simpl. destruct (record_step l r) as [l1|x] eqn:E; simpl.
    + apply IH.
    + destruct (record_step_raises _ _ _ E) as [k ->]. by exists k.
Qed.

(** X16. One record without the image the handler reads fails the whole
    delivery: the answer is 500 with a [KeyError], and nothing is sent to
    the sink, also for the INSERT records that were read before it. *)
Theorem missing_image_aborts_the_delivery (e : env)
    (records : list stream_record) :
  Exists lacks_image records ->
  exists k,
    lambda_handler e records
    = (Ret {| statusCode := 500; body := Failure (KeyError k) |}, []).
Proof.
  intros H.
  destruct (classify_lacks_image records
              {| new_fires := []; updated_fires := []; removed_fires := [] |} H)
    as [k Hk].
  exists k. unfold lambda_handler, handle. by rewrite Hk.
Qed.

End Notifier.

(** *** The handler run on concrete deliveries *)

Example detail_of_a_fire :
  detail_lines string "0" fixed_literal
    (parse_dynamodb_item string literal_float "0" tenochtitlan)
  = ["  • Mexico City, Mexico City (19.4326, -99.1332)";
     "    Confidence: h, FRP: 40.2 MW"].
Proof. by vm_compute. Qed.

(** The examples of the specification, as text: five fires of Mexico and
    two of the USA give five details for Mexico and no overflow line; six
    fires of Mexico give five details and one overflow line. *)
Lemma alert_aggregation_shape_witness :
  message_lines string "0" fixed_literal "2024-01-15 08:00:00 UTC"
    [fire_in string "0" "Mexico" 1; fire_in string "0" "USA" 2;
     fire_in string "0" "Mexico" 3; fire_in string "0" "Mexico" 4;
     fire_in string "0" "USA" 5; fire_in string "0" "Mexico" 6;
     fire_in string "0" "Mexico" 7]
  = ["Firewatch has detected 7 new active fire(s)."; "";
     "Summary by Country:"; "─────────────────────"; "";
     "📍 Mexico: 5 fire(s)";
     "  • City 1, State (0.0000, 0.0000)"; "    Confidence: n, FRP: 0.0 MW";
     "  • City 3, State (0.0000, 0.0000)"; "    Confidence: n, FRP: 0.0 MW";
     "  • City 4, State (0.0000, 0.0000)"; "    Confidence: n, FRP: 0.0 MW";
     "  • City 6, State (0.0000, 0.0000)"; "    Confidence: n, FRP: 0.0 MW";
     "  • City 7, State (0.0000, 0.0000)"; "    Confidence: n, FRP: 0.0 MW";
     ""; "📍 USA: 2 fire(s)";
     "  • City 2, State (0.0000, 0.0000)"; "    Confidence: n, FRP: 0.0 MW";
     "  • City 5, State (0.0000, 0.0000)"; "    Confidence: n, FRP: 0.0 MW";
     ""; "─────────────────────";
     "Detection time: 2024-01-15 08:00:00 UTC"; "";
     "This is an automated alert from Firewatch."]
  /\ message_lines string "0" fixed_literal "2024-01-15 08:00:00 UTC"
       [fire_in string "0" "Mexico" 1; fire_in string "0" "Mexico" 2;
        fire_in string "0" "Mexico" 3; fire_in string "0" "Mexico" 4;
        fire_in string "0" "Mexico" 5; fire_in string "0" "Mexico" 6]
     = ["Firewatch has detected 6 new active fire(s)."; "";
        "Summary by Country:"; "─────────────────────"; "";
        "📍 Mexico: 6 fire(s)";
        "  • City 1, State (0.0000, 0.0000)"; "    Confidence: n, FRP: 0.0 MW";
        "  • City 2, State (0.0000, 0.0000)"; "    Confidence: n, FRP: 0.0 MW";
        "  • City 3, State (0.0000, 0.0000)"; "    Confidence: n, FRP: 0.0 MW";
        "  • City 4, State (0.0000, 0.0000)"; "    Confidence: n, FRP: 0.0 MW";
        "  • City 5, State (0.0000, 0.0000)"; "    Confidence: n, FRP: 0.0 MW";
        "  ... and 1 more";
        ""; "─────────────────────";
        "Detection time: 2024-01-15 08:00:00 UTC"; "";
        "This is an automated alert from Firewatch."].
Proof.
  split.
  - destruct (alert_aggregation_shape string "0" fixed_literal
                "2024-01-15 08:00:00 UTC"
                [fire_in string "0" "Mexico" 1; fire_in string "0" "USA" 2;
                 fire_in string "0" "Mexico" 3; fire_in string "0" "Mexico" 4;
                 fire_in string "0" "USA" 5; fire_in string "0" "Mexico" 6;
                 fire_in string "0" "Mexico" 7]) as (Hlines & _).
    rewrite Hlines. by vm_compute.
  - destruct (alert_aggregation_shape string "0" fixed_literal
                "2024-01-15 08:00:00 UTC"
                [fire_in string "0" "Mexico" 1; fire_in string "0" "Mexico" 2;
                 fire_in string "0" "Mexico" 3; fire_in string "0" "Mexico" 4;
                 fire_in string "0" "Mexico" 5; fire_in string "0" "Mexico" 6])
      as (Hlines & _).
    rewrite Hlines. by vm_compute.
Defined.

Lemma no_insert_no_publish_witness :
  lambda_handler string literal_float "0" fixed_literal (sink_down "t")
    [ {| eventName := "MODIFY"; NewImage := Some tenochtitlan;
         OldImage := Some mexico_city |};
      {| eventName := "REMOVE"; NewImage := None;
         OldImage := Some tenochtitlan |};
      {| eventName := "MODIFY"; NewImage := Some mexico_city;
         OldImage := Some mexico_city |} ]
  = (Ret {| statusCode := 200; body := Summary 0 2 1 |}, []).
Proof.
  match goal with
  | |- lambda_handler _ _ _ _ ?e ?records = _ =>
      destruct (no_insert_no_publish string literal_float "0" fixed_literal
                  e records) as [Hcalls Hanswer]
  end.
  - repeat constructor; simpl; discriminate.
  - specialize (Hanswer ltac:(repeat constructor; simpl;
                               first [discriminate | by eexists | by intros [?|?]])).
    destruct (lambda_handler _ _ _ _ _ _) as [answer calls].
    simpl in *. by rewrite Hcalls, Hanswer.
Defined.

Lemma format_fire_location_unknown_witness :
  format_fire_location string
    (parse_dynamodb_item string literal_float "0"
       (dict [("fire_id", AttrS "19.4326_-99.1332_2024-01-15_0754");
              ("latitude", AttrN "19.4326"); ("location_city", AttrOther)]))
  = "Unknown Location".
Proof.
  apply format_fire_location_unknown.
  intros k s Hk.
  repeat (apply elem_of_cons in Hk as [-> | Hk]);
    [by vm_compute.. | by apply elem_of_nil in Hk].
Defined.

Lemma insert_delivery_publishes_once_witness :
  let records :=
    [ {| eventName := "INSERT"; NewImage := Some tenochtitlan;
         OldImage := None |};
      {| eventName := "MODIFY"; NewImage := Some mexico_city;
         OldImage := Some mexico_city |};
      {| eventName := "INSERT"; NewImage := Some mexico_city;
         OldImage := None |} ] in
  let request :=
    build_request string "0" fixed_literal "t"
      (inserted string literal_float "0" records) in
  (lambda_handler string literal_float "0" fixed_literal (sink_up "t")
     records).2 = [request]
  /\ fire_count request = "2"
  /\ (lambda_handler string literal_float "0" fixed_literal (sink_up "t")
        records).1
     = Ret {| statusCode := 200; body := Summary 2 1 0 |}.
Proof.
  intros records request.
  destruct (insert_delivery_publishes_once string literal_float "0"
              fixed_literal (sink_up "t") records)
    as (Hcalls & _ & Hcount & Hok & _).
  - repeat constructor; simpl;
      first [discriminate | by eexists | by intros [?|?]].
  - vm_compute. lia.
  - split_and!; [exact Hcalls | exact Hcount |].
    by rewrite (Hok "message-id").
Defined.

Lemma missing_image_aborts_the_delivery_witness :
  exists k,
    lambda_handler string literal_float "0" fixed_literal (sink_up "t")
      [ {| eventName := "INSERT"; NewImage := Some tenochtitlan;
           OldImage := None |};
        {| eventName := "REMOVE"; NewImage := None; OldImage := None |} ]
    = (Ret {| statusCode := 500; body := Failure (KeyError k) |}, []).
Proof.
  apply missing_image_aborts_the_delivery.
  apply Exists_cons_tl, Exists_cons_hd. right. by split.
Defined.

End StreamProcessor.

(** ** [lambda_function.py]: the alternate processing entry point *)

Module LambdaFunction.

Import ProcessFires (decimal, Dec, decoded, JDict, JOther, env, geo,
  now_timestamp, now_isoformat, put_item_fault).

Abbreviation fire := (gmap string pyval).

(** The dict [fire_record] of this handler: no acquisition date or time. *)
Record fire_record : Type := {
  latitude : pyval;
  longitude : pyval;
  brightness : pyval;
  confidence : pyval;
  frp : pyval;
  location_city : pyval;
  location_locality : pyval;
  location_country : pyval;
  location_state : pyval
}.

(** The dict [item] of this [store_fire_data]. *)
Record item : Type := {
  fire_id : string;
  timestamp : Z;
  item_latitude : decimal;
  item_longitude : decimal;
  item_brightness : decimal;
  item_confidence : pyval;
  item_frp : decimal;
  item_location_city : pyval;
  item_location_locality : pyval;
  item_location_state : pyval;
  item_location_country : pyval;
  created_at : string
}.

(** An entry of the list [results]. *)
Record result : Type := {
  coordinates : string;
  location : string
}.

(** The answer: status 400 with an error, or status 200 with the count and
    the results. *)
Record response : Type := {
  statusCode : Z;
  stored_successfully : nat;
  results : list result
}.

Section Alternate.

Variable decimal_syntax : string -> bool.

Definition Decimal (s : string) : res decimal :=
  if decimal_syntax s then Ret (Dec s) else Raise (InvalidOperation s).

Definition decimal_or_zero (v : pyval) : res decimal :=
  if truthy v then Decimal (py_str v) else Ret (Dec "0").

Definition unknown_location : gmap string pyval :=
  dict [("city", PStr "Unknown"); ("locality", PStr "Unknown");
        ("countryName", PStr "Unknown");
        ("principalSubdivision", PStr "Unknown")].

Definition get_location_from_coordinates (e : env) : decoded :=
  match geo e with
  | Ret location_data => location_data
  | Raise _ => JDict unknown_location
  end.

Definition location_get (location_data : decoded) (k : string) : res pyval :=
  match location_data with
  | JDict d => Ret (get d k (PStr "Unknown"))
  | JOther _ => Raise (AttributeError "get")
  end.

(** The key of this path: coordinates and ingestion time, always. *)
Definition derive_fire_id (ts : Z) (fire : fire_record) : string :=
  py_str (latitude fire) +:+ "_" +:+ py_str (longitude fire) +:+ "_"
  +:+ pretty ts.

Definition build_item (e : env) (fire : fire_record) : res item :=
  let ts := now_timestamp e in
  lat ← Decimal (py_str (latitude fire));
  lon ← Decimal (py_str (longitude fire));
  bri ← decimal_or_zero (brightness fire);
  pow ← decimal_or_zero (frp fire);
  Ret {| fire_id := derive_fire_id ts fire;
         timestamp := ts;
         item_latitude := lat;
         item_longitude := lon;
         item_brightness := bri;
         item_confidence := confidence fire;
         item_frp := pow;
         item_location_city := location_city fire;
         item_location_locality := location_locality fire;
         item_location_state := location_state fire;
         item_location_country := location_country fire;
         created_at := now_isoformat e |}.

(** [table.put_item(Item=item)]: no condition, the item replaces whatever
    is held under its key. *)
Definition put_item (fault : option exn) (it : item)
    (tbl : gmap string item) : res (gmap string item) :=
  match fault with
  | Some x => Raise x
  | None => Ret (<[fire_id it := it]> tbl)
  end.

(** [store_fire_data(fire)]. *)
Definition store_fire_data (e : env) (fire : fire_record)
    (tbl : gmap string item) : res unit * gmap string item :=
  match build_item e fire with
  | Raise x => (Raise x, tbl)
  | Ret it =>
      match put_item (put_item_fault e) it tbl with
      | Ret tbl' => (Ret tt, tbl')
      | Raise x => (Raise x, tbl)
      end
  end.

Definition build_fire_record (lat lon : pyval) (f : fire)
    (location_data : decoded) : res fire_record :=
  city ← location_get location_data "city";
  locality ← location_get location_data "locality";
  country ← location_get location_data "countryName";
  state ← location_get location_data "principalSubdivision";
  Ret {| latitude := lat;
         longitude := lon;
         brightness := get f "brightness" (PInt 0);
         confidence := get f "confidence" (PStr "unknown");
         frp := get f "frp" (PInt 0);
         location_city := city;
         location_locality := locality;
         location_country := country;
         location_state := state |}.

(** The body of [for fire in fires]: a fire without coordinates is passed
    over, and so is one whose processing raises. *)
Definition fire_step (acc : nat * list result * gmap string item)
    (d : fire * env) : nat * list result * gmap string item :=
  let '(stored_count, results, tbl) := acc in
  match d.1 !! "latitude", d.1 !! "longitude" with
  | Some lat, Some lon =>
      match build_fire_record lat lon d.1 (get_location_from_coordinates d.2) with
      | Raise _ => acc
      | Ret fire_record =>
          match store_fire_data d.2 fire_record tbl with
          | (Raise _, tbl') => (stored_count, results, tbl')
          | (Ret _, tbl') =>
              (S stored_count,
               results ++ [ {| coordinates := py_str lat +:+ ", " +:+ py_str lon;
                               location := py_str (location_city fire_record)
                                           +:+ ", "
                                           +:+ py_str (location_state fire_record) |} ],
               tbl')
          end
      end
  | _, _ => acc
  end.

(** [lambda_handler(event, context)], on the list [event.get('fires', [])],
    each fire with what the outside world answers while it is processed. *)
Definition lambda_handler (fires : list (fire * env)) (tbl : gmap string item)
    : response * gmap string item :=
  if fires is [] then
    ({| statusCode := 400; stored_successfully := 0; results := [] |}, tbl)
  else
    let '(stored_count, results, tbl') := foldl fire_step (0, [], tbl) fires in
    ({| statusCode := 200; stored_successfully := stored_count;
        results := results |}, tbl').

(** The item a fire is written as, when it is written. *)
Definition written (d : fire * env) : option item :=
  match d.1 !! "latitude", d.1 !! "longitude" with
  | Some lat, Some lon =>
      match build_fire_record lat lon d.1 (get_location_from_coordinates d.2) with
      | Ret r =>
          match build_item d.2 r, put_item_fault d.2 with
          | Ret it, None => Some it
          | _, _ => None
          end
      | Raise _ => None
      end
  | _, _ => None
  end.

Lemma fire_step_table acc d :
  (fire_step acc d).2
  = match written d with Some it => <[fire_id it := it]> acc.2 | None => acc.2 end.
Proof.
  destruct acc as [[n rs] tbl]. unfold fire_step, written. simpl.
  destruct (d.1 !! "latitude") as [lat|]; [|done].
  destruct (d.1 !! "longitude") as [lon|]; [|done].
  destruct (build_fire_record _ _ _ _) as [r|x]; [|done].
  unfold store_fire_data, put_item.
  destruct (build_item d.2 r) as [it|x]; [|done].
  by destruct (put_item_fault d.2).
Qed.

Lemma lambda_handler_one d tbl :
  (lambda_handler [d] tbl).2
  = match written d with Some it => <[fire_id it := it]> tbl | None => tbl end.
Proof.
  unfold lambda_handler. cbn [foldl].
  pose proof (fire_step_table (0, [], tbl) d) as H.
  by destruct (fire_step (0, [], tbl) d) as [[n rs] tbl'].
Qed.

Lemma build_item_fire_id e r it :
  build_item e r = Ret it -> fire_id it = derive_fire_id (now_timestamp e) r.
Proof.
  unfold build_item.
  destruct (Decimal (py_str (latitude r))); [|discriminate].
  destruct (Decimal (py_str (longitude r))); [|discriminate].
  destruct (decimal_or_zero (brightness r)); [|discriminate].
  destruct (decimal_or_zero (frp r)); [|discriminate].
  simpl. by intros [= <-].
Qed.

Lemma written_fire_id d it :
  written d = Some it ->
  exists lat lon,
    d.1 !! "latitude" = Some lat /\ d.1 !! "longitude" = Some lon
    /\ fire_id it
       = py_str lat +:+ "_" +:+ py_str lon +:+ "_" +:+ pretty (now_timestamp d.2).
Proof.
  unfold written.
  destruct (d.1 !! "latitude") as [lat|]; [|done].
  destruct (d.1 !! "longitude") as [lon|]; [|done].
  destruct (build_fire_record _ _ _ _) as [r|] eqn:Hr; [|done].
  destruct (build_item d.2 r) as [it0|] eqn:Hit; [|done].
  destruct (put_item_fault d.2); [done|]. intros [= ->].
  exists lat, lon. split_and!; [done..|].
  rewrite (build_item_fire_id _ _ _ Hit). unfold derive_fire_id.
  unfold build_fire_record in Hr.
  destruct (get_location_from_coordinates d.2); [|done].
  simpl in Hr. by injection Hr as <-.
Qed.

(** The acquisition date and time of a detection are not read. *)
Lemma written_ignores_acquisition f e date time :
  written (<["acq_date" := date]> (<["acq_time" := time]> f), e)
  = written (f, e).
Proof.
  unfold written, build_fire_record, get. simpl.
  by rewrite !lookup_insert_ne by done.
Qed.

(** C10. On this path the key of a detection is its coordinates and the
    second of its ingestion, whatever its acquisition date and time, and
    the write has no condition: it replaces what the table holds under the
    key. The same detection ingested at two different seconds is written
    under two different keys, and the table holds both records. *)
Theorem alternate_path_has_no_dedup (f : fire) (e1 e2 : env)
    (it1 it2 : item) (tbl : gmap string item) :
  written (f, e1) = Some it1 -> written (f, e2) = Some it2 ->
  now_timestamp e1 <> now_timestamp e2 ->
  let tbl1 := (lambda_handler [(f, e1)] tbl).2 in
  let tbl2 := (lambda_handler [(f, e2)] tbl1).2 in
  (exists lat lon,
     f !! "latitude" = Some lat /\ f !! "longitude" = Some lon
     /\ fire_id it1
        = py_str lat +:+ "_" +:+ py_str lon +:+ "_" +:+ pretty (now_timestamp e1)
     /\ fire_id it2
        = py_str lat +:+ "_" +:+ py_str lon +:+ "_" +:+ pretty (now_timestamp e2))
  /\ (forall date time,
        written (<["acq_date" := date]> (<["acq_time" := time]> f), e1)
        = Some it1)
  /\ tbl1 = <[fire_id it1 := it1]> tbl
  /\ fire_id it1 <> fire_id it2
  /\ tbl2 !! fire_id it1 = Some it1
  /\ tbl2 !! fire_id it2 = Some it2.
Proof.
  intros H1 H2 Hts tbl1 tbl2.
  destruct (written_fire_id _ _ H1) as (lat & lon & Hlat & Hlon & Hid1).
  destruct (written_fire_id _ _ H2) as (lat' & lon' & Hlat' & Hlon' & Hid2).
  simpl in Hlat, Hlon, Hlat', Hlon', Hid1, Hid2.
  rewrite Hlat in Hlat'. rewrite Hlon in Hlon'.
  injection Hlat' as <-. injection Hlon' as <-.
  assert (fire_id it1 <> fire_id it2) as Hne.
  { rewrite Hid1, Hid2. intros Heq.
    repeat apply String.app_inj in Heq. by apply pretty_Z_inj in Heq. }
  assert (tbl1 = <[fire_id it1 := it1]> tbl) as Htbl1.
  { unfold tbl1. by rewrite lambda_handler_one, H1. }
  assert (tbl2 = <[fire_id it2 := it2]> tbl1) as Htbl2.
  { unfold tbl2. by rewrite lambda_handler_one, H2. }
  split_and!.
  - by exists lat, lon.
  - intros date time. by rewrite written_ignores_acquisition.
  - exact Htbl1.
  - exact Hne.
  - rewrite Htbl2, Htbl1, lookup_insert_ne by done. apply lookup_insert_eq.
  - rewrite Htbl2. apply lookup_insert_eq.
Qed.

(** *** The report of this path *)

Lemma alternate_step_count acc d :
  (fire_step acc d).1.1 = acc.1.1 + length (option_list (written d))
  /\ length (fire_step acc d).1.2
     = length acc.1.2 + length (option_list (written d)).
Proof.
  destruct acc as [[n rs] tbl]. unfold fire_step, written. cbn [fst snd].
  destruct (d.1 !! "latitude") as [lat|]; [|cbn; lia].
  destruct (d.1 !! "longitude") as [lon|]; [|cbn; lia].
  destruct (build_fire_record _ _ _ _) as [r|x]; [|cbn; lia].
  unfold store_fire_data, put_item.
  destruct (build_item d.2 r) as [it|x]; [|cbn; lia].
  destruct (put_item_fault d.2); cbn; [lia|].
  rewrite length_app. cbn. lia.
Qed.

Lemma fire_steps_written fires acc :
  (foldl fire_step acc fires).1.1 = acc.1.1 + length (omap written fires)
  /\ length (foldl fire_step acc fires).1.2
     = length acc.1.2 + length (omap written fires)
  /\ (foldl fire_step acc fires).2
     = foldl (fun t it => <[fire_id it := it]> t) acc.2 (omap written fires).
Proof.
  revert acc. induction fires as [|d fires IH]; intros acc.
  - cbn. split_and!; [lia | lia | done].
  - cbn [foldl omap list_omap].
    destruct (IH (fire_step acc d)) as (H1 & H2 & H3).
    destruct (alternate_step_count acc d) as [C1 C2].
    pose proof (fire_step_table acc d) as T.
    rewrite H1, H2, H3, C1, C2, T.
    destruct (written d) as [it|]; cbn; split_and!; (lia || done).
Qed.

Lemma written_count_le {A B} (f : A -> option B) (l : list A) :
  length (omap f l) <= length l.
Proof. induction l as [|x l IH]; [done|]. cbn. destruct (f x); cbn; lia. Qed.

(** X17. The report of this path: status 400 for an empty list of fires
    and 200 for any other, also when no fire could be written;
    [stored_successfully] is the number of fires written, which is the
    number of [results]; a fire without coordinates or whose processing
    failed is left out of both and reported nowhere. The table is the old
    one with the written items put in order, each replacing what its key
    held. *)
Theorem alternate_report (fires : list (fire * env))
    (tbl : gmap string item) :
  let resp := (lambda_handler fires tbl).1 in
  let tbl' := (lambda_handler fires tbl).2 in
  statusCode resp = (if fires is [] then 400%Z else 200%Z)
  /\ stored_successfully resp = length (omap written fires)
  /\ length (results resp) = stored_successfully resp
  /\ stored_successfully resp <= length fires
  /\ tbl' = foldl (fun t it => <[fire_id it := it]> t) tbl (omap written fires).
Proof.
  cbv zeta. unfold lambda_handler.
  destruct fires as [|d fires]; [by cbn|].
  destruct (fire_steps_written (d :: fires) (0, [], tbl)) as (H1 & H2 & H3).
  pose proof (written_count_le written (d :: fires)) as Hle.
  set (ws := omap written (d :: fires)) in *.
  destruct (foldl fire_step (0, [], tbl) (d :: fires)) as [[n rs] tbl'].
  cbn [fst snd statusCode stored_successfully results length] in *.
  split_and!; [done | lia | lia | lia | done].
Qed.

(** X18. Two fires of one request at the same coordinates, written within
    the same second, get the same key: both are counted as stored, and the
    table keeps the second only. *)
Theorem same_second_overwrites (d1 d2 : fire * env) (it1 it2 : item)
    (tbl : gmap string item) :
  written d1 = Some it1 -> written d2 = Some it2 ->
  d1.1 !! "latitude" = d2.1 !! "latitude" ->
  d1.1 !! "longitude" = d2.1 !! "longitude" ->
  now_timestamp d1.2 = now_timestamp d2.2 ->
  fire_id it1 = fire_id it2
  /\ stored_successfully (lambda_handler [d1; d2] tbl).1 = 2
  /\ (lambda_handler [d1; d2] tbl).2 = <[fire_id it2 := it2]> tbl.
Proof.
  intros H1 H2 Hlat Hlon Hts.
  assert (fire_id it1 = fire_id it2) as Hid.
  { destruct (written_fire_id _ _ H1) as (lat & lon & Hlat1 & Hlon1 & ->).
    destruct (written_fire_id _ _ H2) as (lat' & lon' & Hlat2 & Hlon2 & ->).
    rewrite Hlat, Hlat2 in Hlat1. rewrite Hlon, Hlon2 in Hlon1.
    injection Hlat1 as ->. injection Hlon1 as ->. by rewrite Hts. }
  split; [done|]. unfold lambda_handler.
  destruct (fire_steps_written [d1; d2] (0, [], tbl)) as (C1 & _ & C3).
  destruct (foldl fire_step (0, [], tbl) [d1; d2]) as [[n rs] tbl'].
  cbn [fst snd stored_successfully omap list_omap] in *.
  rewrite H1, H2 in C1, C3. cbn in C1, C3. split; [done|].
  by rewrite C3, Hid, insert_insert_eq.
Qed.

(** X22. On this path too a failed geocode lookup does not fail the
    fire: it is written with the four location fields [Unknown], it is
    counted as stored, and its result reads [Unknown, Unknown]. *)
Theorem alternate_geocode_failure (f : fire) (e : env) (x : exn) (it : item)
    (tbl : gmap string item) :
  geo e = Raise x -> written (f, e) = Some it ->
  item_location_city it = PStr "Unknown"
  /\ item_location_locality it = PStr "Unknown"
  /\ item_location_state it = PStr "Unknown"
  /\ item_location_country it = PStr "Unknown"
  /\ exists lat lon,
       f !! "latitude" = Some lat /\ f !! "longitude" = Some lon
       /\ lambda_handler [(f, e)] tbl
          = ({| statusCode := 200; stored_successfully := 1;
                results := [ {| coordinates := py_str lat +:+ ", " +:+ py_str lon;
                                location := "Unknown, Unknown" |} ] |},
             <[fire_id it := it]> tbl).
Proof.
  intros Hgeo. unfold written, lambda_handler. cbn [foldl fst snd].
  unfold fire_step, store_fire_data, put_item. cbn [fst snd].
  destruct (f !! "latitude") as [lat|]; [|done].
  destruct (f !! "longitude") as [lon|]; [|done].
  unfold get_location_from_coordinates. rewrite Hgeo.
  change (build_fire_record lat lon f (JDict unknown_location))
    with (Ret {| latitude := lat; longitude := lon;
                 brightness := get f "brightness" (PInt 0);
                 confidence := get f "confidence" (PStr "unknown");
                 frp := get f "frp" (PInt 0);
                 location_city := PStr "Unknown";
                 location_locality := PStr "Unknown";
                 location_country := PStr "Unknown";
                 location_state := PStr "Unknown" |}).
  cbv iota beta.
  destruct (build_item e _) as [it0|] eqn:Hit; [|done].
  destruct (put_item_fault e); [done|]. intros [= ->].
  assert (item_location_city it = PStr "Unknown"
          /\ item_location_locality it = PStr "Unknown"
          /\ item_location_state it = PStr "Unknown"
          /\ item_location_country it = PStr "Unknown") as (H1 & H2 & H3 & H4).
  { unfold build_item in Hit. cbn [latitude longitude brightness frp] in Hit.
    destruct (Decimal (py_str lat)); [|done].
    destruct (Decimal (py_str lon)); [|done].
    destruct (decimal_or_zero (get f "brightness" (PInt 0))); [|done].
    destruct (decimal_or_zero (get f "frp" (PInt 0))); [|done].
    simpl in Hit. by injection Hit as <-. }
  split_and!; [done..|]. by exists lat, lon.
Qed.

End Alternate.

(** The detection of the Processor's examples, ingested twice through this
    entry point, a minute apart. *)
Lemma alternate_path_has_no_dedup_witness :
  let f := ProcessFires.dated_fire in
  let e1 := ProcessFires.calm 1700000000 "2023-11-14T22:13:20" in
  let e2 := ProcessFires.calm 1700000060 "2023-11-14T22:14:20" in
  let tbl1 := (lambda_handler plain_decimal [(f, e1)] ∅).2 in
  let tbl2 := (lambda_handler plain_decimal [(f, e2)] tbl1).2 in
  exists it1 it2,
    tbl2 !! "34.0522_-118.2437_1700000000" = Some it1
    /\ tbl2 !! "34.0522_-118.2437_1700000060" = Some it2
    /\ fire_id it1 <> fire_id it2.
Proof.
  cbv zeta.
  edestruct (alternate_path_has_no_dedup plain_decimal ProcessFires.dated_fire
               (ProcessFires.calm 1700000000 "2023-11-14T22:13:20")
               (ProcessFires.calm 1700000060 "2023-11-14T22:14:20"))
    as (_ & _ & _ & Hne & H1 & H2);
    [vm_compute; reflexivity | vm_compute; reflexivity
     | vm_compute; discriminate |].
  eexists _, _. split; [exact H1|]. split; [exact H2|]. exact Hne.
Defined.

Lemma same_second_overwrites_witness :
  let d1 := (ProcessFires.dated_fire,
             ProcessFires.calm 1700000000 "2023-11-14T22:13:20.100") in
  let d2 := (<["confidence" := PStr "h"]> ProcessFires.dated_fire,
             ProcessFires.calm 1700000000 "2023-11-14T22:13:20.900") in
  let out := lambda_handler plain_decimal [d1; d2] ∅ in
  stored_successfully out.1 = 2
  /\ size out.2 = 1
  /\ exists it, out.2 !! "34.0522_-118.2437_1700000000" = Some it
       /\ item_confidence it = PStr "h".
Proof.
  intros d1 d2 out.
  edestruct (same_second_overwrites plain_decimal d1 d2) with (tbl := ∅ : gmap string item)
    as (_ & Hcount & Htbl);
    [by vm_compute | by vm_compute | by vm_compute | by vm_compute
     | by vm_compute |].
  fold out in Hcount, Htbl. split; [exact Hcount|].
  rewrite Htbl. split; [by vm_compute|].
  eexists. split; by vm_compute.
Defined.

Lemma alternate_geocode_failure_witness :
  exists it,
    lambda_handler plain_decimal
      [(ProcessFires.dated_fire,
        ProcessFires.no_geocode 1700000000 "2023-11-14T22:13:20")] ∅
    = ({| statusCode := 200; stored_successfully := 1;
          results := [ {| coordinates := "34.0522, -118.2437";
                          location := "Unknown, Unknown" |} ] |},
       <[fire_id it := it]> ∅)
    /\ item_location_country it = PStr "Unknown".
Proof.
  eexists.
  edestruct (alternate_geocode_failure plain_decimal ProcessFires.dated_fire
               (ProcessFires.no_geocode 1700000000 "2023-11-14T22:13:20")
               (URLError "timed out"))
    with (tbl := ∅ : gmap string item)
    as (_ & _ & _ & Hcountry & lat & lon & Hlat & Hlon & Hrun);
    [reflexivity | by vm_compute |].
  vm_compute in Hlat, Hlon. injection Hlat as <-. injection Hlon as <-.
  split; [exact Hrun | exact Hcountry].
Defined.

End LambdaFunction.

(** ** From the Fetcher to the Processor *)

Module Pipeline.

Section Wire.

Variable decimal_syntax : string -> bool.

(** The floats of the Fetcher, and [str(x)] of a float: it is how
    [json.dumps] writes [x], and what [str] prints for the float that
    [json.loads] reads back. *)
Variable pyfloat : Type.
Variable repr : pyfloat -> string.

(** A detection of a queue message as the Processor decodes it:
    [json.loads] of the [json.dumps] of a [fire_record] of the Fetcher. *)
Definition wire (r : FetchFires.fire_record pyfloat) : ProcessFires.fire :=
  dict [("latitude", PFloat (repr (FetchFires.latitude pyfloat r)));
        ("longitude", PFloat (repr (FetchFires.longitude pyfloat r)));
        ("brightness", PFloat (repr (FetchFires.brightness pyfloat r)));
        ("confidence", PStr (FetchFires.confidence pyfloat r));
        ("frp", PFloat (repr (FetchFires.frp pyfloat r)));
        ("acq_date", PStr (FetchFires.acq_date pyfloat r));
        ("acq_time", PStr (FetchFires.acq_time pyfloat r));
        ("satellite", PStr (FetchFires.satellite pyfloat r));
        ("instrument", PStr (FetchFires.instrument pyfloat r));
        ("daynight", PStr (FetchFires.daynight pyfloat r))].

(** The key of a row of the feed. *)
Definition row_key (r : FetchFires.fire_record pyfloat) : string :=
  repr (FetchFires.latitude pyfloat r) +:+ "_"
  +:+ repr (FetchFires.longitude pyfloat r) +:+ "_"
  +:+ FetchFires.acq_date pyfloat r +:+ "_" +:+ FetchFires.acq_time pyfloat r.

(** A row of the examples, its floats carried by their literals. *)
Definition los_angeles_row (lit : string -> pyfloat)
    : FetchFires.fire_record pyfloat :=
  {| FetchFires.latitude := lit "34.0522";
     FetchFires.longitude := lit "-118.2437";
     FetchFires.brightness := lit "330.5";
     FetchFires.confidence := "n";
     FetchFires.frp := lit "12.5";
     FetchFires.acq_date := "2024-01-15";
     FetchFires.acq_time := "0612";
     FetchFires.satellite := "N";
     FetchFires.instrument := "VIIRS";
     FetchFires.daynight := "D" |}.

Lemma wire_coordinates r :
  wire r !! "latitude" = Some (PFloat (repr (FetchFires.latitude pyfloat r)))
  /\ wire r !! "longitude"
     = Some (PFloat (repr (FetchFires.longitude pyfloat r)))
  /\ get (wire r) "acq_date" (PStr "") = PStr (FetchFires.acq_date pyfloat r)
  /\ get (wire r) "acq_time" (PStr "") = PStr (FetchFires.acq_time pyfloat r).
Proof. by vm_compute. Qed.

Lemma build_item_key e rec it :
  ProcessFires.build_item decimal_syntax e rec = Ret it ->
  ProcessFires.fire_id it
  = ProcessFires.derive_fire_id (ProcessFires.now_timestamp e) rec.
Proof.
  unfold ProcessFires.build_item.
  destruct (ProcessFires.Decimal _ (py_str (ProcessFires.latitude rec)));
    [|discriminate].
  destruct (ProcessFires.Decimal _ (py_str (ProcessFires.longitude rec)));
    [|discriminate].
  destruct (ProcessFires.decimal_or_zero _ (ProcessFires.brightness rec));
    [|discriminate].
  destruct (ProcessFires.decimal_or_zero _ (ProcessFires.frp rec));
    [|discriminate].
  simpl. by intros [= <-].
Qed.

Lemma offered_row_key r e it :
  FetchFires.acq_date pyfloat r <> "" \/ FetchFires.acq_time pyfloat r <> "" ->
  ProcessFires.offered decimal_syntax (wire r, e) = Some it ->
  ProcessFires.fire_id it = row_key r.
Proof.
  intros Hdated. destruct (wire_coordinates r) as (Hlat & Hlon & Hdate & Htime).
  unfold ProcessFires.offered. cbn [fst snd]. rewrite Hlat, Hlon.
  destruct (ProcessFires.build_fire_record _ _ _ _) as [rec|] eqn:Hrec;
    [|discriminate].
  destruct (ProcessFires.build_item decimal_syntax e rec) as [it0|] eqn:Hit;
    [|discriminate].
  destruct (ProcessFires.put_item_fault e); [discriminate|]. intros [= <-].
  rewrite (build_item_key _ _ _ Hit).
  apply ProcessFires.build_fire_record_fields in Hrec as (H1 & H2 & H3 & H4).
  rewrite Hdate in H3. rewrite Htime in H4.
  rewrite ProcessFires.derive_fire_id_primary.
  - unfold ProcessFires.primary_fire_id, ProcessFires.acq_datetime, row_key.
    by rewrite H1, H2, H3, H4.
  - unfold ProcessFires.acq_datetime. rewrite H3, H4. cbn [py_str].
    intros [? ?]%ProcessFires.underscore_only. by destruct Hdated.
Qed.

(** X19. A row of the feed that has an acquisition date or time is keyed
    by the row alone, from the Fetcher to the table: however it is batched
    and whenever it is processed, the Processor never skips it for missing
    coordinates and offers it under latitude_longitude_date_time, the
    floats printed as [str] prints them. So a row that the table holds is
    not written again by a later fetch, and a row that it does not hold is
    written under that key. *)
Theorem fetched_row_key (r : FetchFires.fire_record pyfloat)
    (e : ProcessFires.env) (w : ProcessFires.world) :
  FetchFires.acq_date pyfloat r <> "" \/ FetchFires.acq_time pyfloat r <> "" ->
  let after := ProcessFires.process_fire decimal_syntax e (wire r) w in
  after.1 <> Ret false
  /\ (forall it, ProcessFires.offered decimal_syntax (wire r, e) = Some it ->
        ProcessFires.fire_id it = row_key r)
  /\ (is_Some (ProcessFires.table w !! row_key r) ->
        ProcessFires.table after.2 = ProcessFires.table w)
  /\ (ProcessFires.table w !! row_key r = None ->
      forall it, ProcessFires.offered decimal_syntax (wire r, e) = Some it ->
        ProcessFires.table after.2 = <[row_key r := it]> (ProcessFires.table w)).
Proof.
  intros Hdated after. split_and!.
  - unfold after, ProcessFires.process_fire.
    destruct (wire_coordinates r) as (-> & -> & _).
    destruct (ProcessFires.build_fire_record _ _ _ _) as [rec|]; [|done].
    by destruct (ProcessFires.store_fire_data _ _ _ _) as [[[]|x] w'].
  - intros it. by apply offered_row_key.
  - intros [held Hheld]. unfold after.
    rewrite ProcessFires.process_fire_table. unfold ProcessFires.create.
    destruct (ProcessFires.offered _ _) as [it|] eqn:Ho; [|done].
    by rewrite (offered_row_key r e it Hdated Ho), Hheld.
  - intros Hfree it Ho. unfold after.
    rewrite ProcessFires.process_fire_table. unfold ProcessFires.create.
    by rewrite Ho, (offered_row_key r e it Hdated Ho), Hfree.
Qed.

End Wire.

(** The row of the examples, fetched twice and processed a minute apart:
    one record, under the key of the row. *)
Lemma fetched_row_key_witness :
  let r := los_angeles_row string (fun s => s) in
  let w1 := (ProcessFires.process_fire plain_decimal
               (ProcessFires.calm 1700000000 "2023-11-14T22:13:20")
               (wire string (fun s => s) r) ProcessFires.world0).2 in
  let w2 := (ProcessFires.process_fire plain_decimal
               (ProcessFires.calm 1700000060 "2023-11-14T22:14:20")
               (wire string (fun s => s) r) w1).2 in
  row_key string (fun s => s) r = "34.0522_-118.2437_2024-01-15_0612"
  /\ is_Some (ProcessFires.table w1 !! "34.0522_-118.2437_2024-01-15_0612")
  /\ ProcessFires.table w2 = ProcessFires.table w1.
Proof.
  intros r w1 w2. split; [reflexivity|].
  assert (is_Some (ProcessFires.table w1 !! "34.0522_-118.2437_2024-01-15_0612"))
    as Hheld by (by vm_compute; eexists).
  split; [exact Hheld|].
  destruct (fetched_row_key plain_decimal string (fun s => s) r
              (ProcessFires.calm 1700000060 "2023-11-14T22:14:20") w1)
    as (_ & _ & Hnoop & _); [left; discriminate|].
  by apply Hnoop.
Defined.

End Pipeline.
